(** * The YOLO-to-ONNX conversion script, [scripts/convert_yolov8n-seg_to_onnx.py]

    The script is orchestration only: it checks that a checkpoint exists,
    asks an external model library to load and export it, optionally moves
    the produced file, and asks an external validator to look at it.  The
    embedding below follows the Python text statement by statement in a
    state-and-exception monad over a world made of a file tree, the lines
    written to standard output and a log of the calls made to libraries.

    What is modelled and what is not:
    - exceptions are the instances of Python's [Exception]; the signals
      that only derive from [BaseException] (keyboard interrupt, an exit
      request raised inside a library) are outside the model;
    - the file tree has regular files and directories on one device, no
      symbolic or hard links and no permissions; a path component [..] is
      an ordinary name;
    - the model library and the validator are parameters (record
      [environment]); loading a checkpoint and loading a graph read the
      file tree, exporting may change it in any way;
    - [print] never raises. *)

From stdpp Require Import gmap strings list.
From Stdlib Require Import Ascii ZArith DecimalString.

#[local] Open Scope Z_scope.
#[local] Set Warnings "-register-all".

(** ** Python strings *)

Definition nl : string := String (Ascii.ascii_of_nat 10) EmptyString.

(** [s * n] on strings. *)
Fixpoint str_repeat (s : string) (n : nat) : string :=
  match n with
  | O => EmptyString
  | S n' => s +:+ str_repeat s n'
  end.

(** [str(i)] for an integer. *)
Definition str_int (i : Z) : string := NilZero.string_of_int (Z.to_int i).

(** [str(b)] for a boolean. *)
Definition str_bool (b : bool) : string := if b then "True" else "False".

(** [sep.join(l)]. *)
Fixpoint str_join (sep : string) (l : list string) : string :=
  match l with
  | [] => EmptyString
  | [x] => x
  | x :: l' => x +:+ sep +:+ str_join sep l'
  end.

(** Truth value of a string: only the empty string is falsy. *)
Definition truthy (s : string) : bool :=
  match s with
  | EmptyString => false
  | String _ _ => true
  end.

(** ** Exceptions *)

(** The classes that occur; [ModuleNotFoundError] derives from
    [ImportError], every other class named here derives from [Exception]
    directly or through [OSError].  [OtherException] stands for any further
    class deriving from [Exception] and not from [ImportError]. *)
Inductive exn_class : Type :=
  | FileNotFoundError
  | FileExistsError
  | NotADirectoryError
  | IsADirectoryError
  | OSError
  | ShutilError
  | RuntimeError
  | ImportError
  | ModuleNotFoundError
  | OtherException (name : string).

Record exn : Type := Exn { exn_cls : exn_class; exn_msg : string }.

(** [isinstance(e, ImportError)] *)
Definition is_ImportError (e : exn) : bool :=
  match exn_cls e with
  | ImportError | ModuleNotFoundError => true
  | _ => false
  end.

(** [str(e)], what an f-string prints for [{e}]. *)
Definition str_exn (e : exn) : string := exn_msg e.

Inductive result (A : Type) : Type :=
  | Ok (a : A)
  | Raised (e : exn).
Arguments Ok {A} a.
Arguments Raised {A} e.

(** ** pathlib on a POSIX system *)

Module PosixPath.

(** A parsed path: its root ([""], ["/"] or ["//"]) and its components. *)
Record PurePath : Type := mkPath { root : string; parts : list string }.

Definition is_slash (c : ascii) : bool := Ascii.eqb c "/"%char.

(** [s.split("/")] *)
Fixpoint split_slash (s : string) : list string :=
  match s with
  | EmptyString => [EmptyString]
  | String c s' =>
      if is_slash c then EmptyString :: split_slash s'
      else match split_slash s' with
           | h :: t => String c h :: t
           | [] => [String c EmptyString]
           end
  end.

(** The root of a path string: one slash, except that exactly two
    leading slashes are kept. *)
Definition root_of (s : string) : string :=
  match s with
  | String c1 (String c2 (String c3 _)) =>
      if is_slash c1 then
        if is_slash c2 then if is_slash c3 then "/" else "//" else "/"
      else ""
  | String c1 (String c2 EmptyString) =>
      if is_slash c1 then if is_slash c2 then "//" else "/" else ""
  | String c1 EmptyString => if is_slash c1 then "/" else ""
  | EmptyString => ""
  end.

Definition is_name (c : string) : bool :=
  negb (String.eqb c "" || String.eqb c ".").

(** [Path(s)]: empty components and [.] components are dropped. *)
Definition Path (s : string) : PurePath :=
  {| root := root_of s; parts := filter is_name (split_slash s) |}.

(** [str(p)] *)
Definition str (p : PurePath) : string :=
  match root p, parts p with
  | EmptyString, [] => "."
  | r, ps => r +:+ str_join "/" ps
  end.

(** [p.parent]: a path without components is its own parent. *)
Definition parent (p : PurePath) : PurePath :=
  {| root := root p; parts := removelast (parts p) |}.

(** [p / s]: an absolute right operand replaces the left one. *)
Definition joinpath (p : PurePath) (s : string) : PurePath :=
  let q := Path s in
  if truthy (root q) then q
  else {| root := root p; parts := parts p ++ parts q |}.

End PosixPath.
Export PosixPath.

Infix "</>" := joinpath (at level 40, left associativity).

(** ** The file tree *)

Module FileSystem.

Inductive node : Type :=
  | File (content : string)
  | Dir (entries : gmap string node).

(** A location: the names from the root directory down. *)
Abbreviation loc := (list string).

Inductive errno : Type :=
  | ENOENT | EEXIST | ENOTDIR | EISDIR | ENOTEMPTY | EINVAL.

Fixpoint lookup_path (p : loc) (n : node) : option node :=
  match p with
  | [] => Some n
  | c :: p' =>
      match n with
      | Dir es => es !! c ≫= lookup_path p'
      | File _ => None
      end
  end.

Definition path_exists (p : loc) (r : node) : bool :=
  match lookup_path p r with
  | Some _ => true
  | None => false
  end.

Definition is_dir (p : loc) (r : node) : bool :=
  match lookup_path p r with
  | Some (Dir _) => true
  | _ => false
  end.

Definition is_file (p : loc) (r : node) : bool :=
  match lookup_path p r with
  | Some (File _) => true
  | _ => false
  end.

(** Put the subtree [x] at [p]; the parent of [p] must be a directory. *)
Fixpoint put (p : loc) (x : node) (n : node) : option node :=
  match p with
  | [] => Some x
  | c :: p' =>
      match n with
      | File _ => None
      | Dir es =>
          match p' with
          | [] => Some (Dir (<[c:=x]> es))
          | _ :: _ =>
              match es !! c ≫= put p' x with
              | Some child => Some (Dir (<[c:=child]> es))
              | None => None
              end
          end
      end
  end.

(** Unlink whatever is at [p]. *)
Fixpoint remove (p : loc) (n : node) : node :=
  match p with
  | [] => n
  | c :: p' =>
      match n with
      | File _ => n
      | Dir es =>
          match p' with
          | [] => Dir (delete c es)
          | _ :: _ =>
              match es !! c with
              | Some child => Dir (<[c:=remove p' child]> es)
              | None => n
              end
          end
      end
  end.

(** [mkdir -p]: every missing directory on the way is created; a
    regular file on the way is an error and nothing is created. *)
Fixpoint makedirs (p : loc) (n : node) : errno + node :=
  match n with
  | File _ => inl (match p with [] => EEXIST | _ :: _ => ENOTDIR end)
  | Dir es =>
      match p with
      | [] => inr n
      | c :: p' =>
          match makedirs p' (default (Dir ∅) (es !! c)) with
          | inr child => inr (Dir (<[c:=child]> es))
          | inl e => inl e
          end
      end
  end.

(** [src] is a strict ancestor of [dst]. *)
Definition inside (src dst : loc) : bool :=
  bool_decide (src `prefix_of` dst) && negb (bool_decide (src = dst)).

(** [rename(2)] *)
Definition rename (src dst : loc) (r : node) : errno + node :=
  match lookup_path src r with
  | None => inl ENOENT
  | Some n =>
      if bool_decide (src = dst) then inr r
      else if inside src dst then inl EINVAL
      else
        let replace :=
          match put dst n (remove src r) with
          | Some r' => inr r'
          | None => inl ENOENT
          end in
        match lookup_path dst r, n with
        | Some (Dir es), Dir _ =>
            if bool_decide (size es = 0%nat) then replace else inl ENOTEMPTY
        | Some (Dir _), File _ => inl EISDIR
        | Some (File _), Dir _ => inl ENOTDIR
        | Some (File _), File _ => replace
        | None, _ =>
            match lookup_path (removelast dst) r with
            | Some (Dir _) => replace
            | Some (File _) => inl ENOTDIR
            | None => inl ENOENT
            end
        end
  end.

End FileSystem.
Export FileSystem.

(** ** Paths as the operating system sees them *)

Module OsPath.

(** Where a path string leads: relative strings start at the working
    directory; empty and [.] components do not count. *)
Definition locate (cwd : loc) (s : string) : loc :=
  let p := Path s in
  if truthy (root p) then parts p else cwd ++ parts p.

(** System calls refuse the empty string. *)
Definition os_path_exists (cwd : loc) (s : string) (r : node) : bool :=
  truthy s && path_exists (locate cwd s) r.

Definition os_path_isdir (cwd : loc) (s : string) (r : node) : bool :=
  truthy s && is_dir (locate cwd s) r.

(** [os.path.samefile], with a failing [stat] read as "no". *)
Definition samefile (cwd : loc) (a b : string) (r : node) : bool :=
  os_path_exists cwd a r && os_path_exists cwd b r
  && bool_decide (locate cwd a = locate cwd b).

(** [s.rstrip("/")] *)
Fixpoint rstrip_slash (s : string) : string :=
  match s with
  | EmptyString => EmptyString
  | String c s' =>
      match rstrip_slash s' with
      | EmptyString =>
          if Ascii.eqb c "/"%char then EmptyString else String c EmptyString
      | t => String c t
      end
  end.

(** [shutil._basename]: the last component, trailing slashes ignored. *)
Definition basename (s : string) : string :=
  List.last (split_slash (rstrip_slash s)) EmptyString.

Fixpoint ends_with_slash (s : string) : bool :=
  match s with
  | EmptyString => false
  | String c EmptyString => Ascii.eqb c "/"%char
  | String _ s' => ends_with_slash s'
  end.

(** [os.path.join(a, b)] *)
Definition os_path_join (a b : string) : string :=
  if truthy (root_of b) then b
  else if negb (truthy a) || ends_with_slash a then a +:+ b
  else a +:+ "/" +:+ b.

Definition quoted (s : string) : string := "'" +:+ s +:+ "'".

(** The exception a failed system call raises.  The class follows
    CPython; the text is CPython's for plain file names. *)
Definition os_error (e : errno) (detail : string) : exn :=
  match e with
  | ENOENT =>
      Exn FileNotFoundError ("[Errno 2] No such file or directory: " +:+ detail)
  | EEXIST => Exn FileExistsError ("[Errno 17] File exists: " +:+ detail)
  | ENOTDIR => Exn NotADirectoryError ("[Errno 20] Not a directory: " +:+ detail)
  | EISDIR => Exn IsADirectoryError ("[Errno 21] Is a directory: " +:+ detail)
  | ENOTEMPTY => Exn OSError ("[Errno 39] Directory not empty: " +:+ detail)
  | EINVAL => Exn OSError ("[Errno 22] Invalid argument: " +:+ detail)
  end.

(** [os.rename(src, dst)] *)
Definition os_rename (cwd : loc) (src dst : string) (r : node) : result node :=
  let detail := quoted src +:+ " -> " +:+ quoted dst in
  if negb (truthy src) || negb (truthy dst) then Raised (os_error ENOENT detail)
  else match rename (locate cwd src) (locate cwd dst) r with
       | inr r' => Ok r'
       | inl e => Raised (os_error e detail)
       end.

(** [shutil.move(src, dst)].  An existing directory as destination
    receives the source inside it, under the source's base name, and
    that name must be free.  When the rename fails CPython falls back to
    copy-and-delete; on one device without permissions the fallback
    fails whenever the rename did, so the rename's error is raised. *)
Definition shutil_move (cwd : loc) (src dst : string) (r : node) : result node :=
  if os_path_isdir cwd dst r then
    if samefile cwd src dst r then os_rename cwd src dst r
    else
      let real_dst := os_path_join dst (basename src) in
      if os_path_exists cwd real_dst r then
        Raised (Exn ShutilError
                  ("Destination path " +:+ quoted real_dst +:+ " already exists"))
      else os_rename cwd src real_dst r
  else os_rename cwd src dst r.

(** [Path.mkdir(parents=True, exist_ok=True)] *)
Definition path_mkdir (cwd : loc) (p : PurePath) (r : node) : result node :=
  match makedirs (locate cwd (str p)) r with
  | inr r' => Ok r'
  | inl e => Raised (os_error e (quoted (str p)))
  end.

End OsPath.
Export OsPath.

(** ** The world, and the objects the libraries hand out *)

(** What the script reads of a loaded model: [ckpt_path] is the file it
    came from, [model_type] the class name of its [model] attribute when
    it has one, [names] the values of its [names] dictionary when it has
    one. *)
Record yolo_model : Type := {
  ckpt_path : string;
  model_type : option string;
  names : option (list string)
}.

(** The keyword arguments of [model.export]. *)
Record export_args : Type := {
  format : string;
  imgsz : Z;
  simplify : bool;
  opset : Z;
  nms : bool;
  dynamic : bool
}.

Record dim : Type := { dim_value : Z; dim_param : string }.
Record value_info : Type := { vi_name : string; vi_dims : list dim }.
Record onnx_model : Type := {
  graph_input : list value_info;
  graph_output : list value_info
}.

(** A value that is either a string or a [Path] object: the driver
    returns what the library returned, or the [Path] it moved the file to. *)
Inductive path_value : Type :=
  | AsStr (s : string)
  | AsPath (p : PurePath).

Definition str_value (v : path_value) : string :=
  match v with
  | AsStr s => s
  | AsPath p => str p
  end.

(** The calls that leave the script, in the order they are made. *)
Inductive call : Type :=
  | CallYOLO (model_path : string)
  | CallExport (args : export_args)
  | CallMkdir (p : PurePath)
  | CallMove (src dst : string)
  | CallImportOnnx
  | CallOnnxLoad (path : string)
  | CallCheckModel.

Record world : Type := {
  fs : node;
  stdout : list string;
  calls : list call
}.

(** Everything the script takes from outside. *)
Record environment : Type := {
  cwd : loc;
  (** [from ultralytics import YOLO] *)
  import_ultralytics : option exn;
  (** [YOLO(model_path)] *)
  YOLO : node → string → result yolo_model;
  (** [model.export(...)]: the file tree it leaves and what it returns *)
  export : yolo_model → export_args → node → node * result string;
  (** [import onnx] *)
  import_onnx : option exn;
  (** [onnx.load(path)] *)
  onnx_load : node → string → result onnx_model;
  (** [onnx.checker.check_model(m)] *)
  check_model : onnx_model → option exn;
  (** [repr] of a list of strings, and of a list of integers and strings *)
  repr_names : list string → string;
  repr_shape : list (Z + string) → string
}.

(** ** The monad of the script *)

Definition M (A : Type) : Type := world → world * result A.

#[export] Instance M_ret : MRet M := λ A a w, (w, Ok a).

#[export] Instance M_bind : MBind M := λ A B f m w,
  match m w with
  | (w', Ok a) => f a w'
  | (w', Raised e) => (w', Raised e)
  end.

Definition raise {A : Type} (e : exn) : M A := λ w, (w, Raised e).

(** [try: m  except Exception as e: h e] *)
Definition try_except {A : Type} (m : M A) (h : exn → M A) : M A := λ w,
  match m w with
  | (w', Ok a) => (w', Ok a)
  | (w', Raised e) => h e w'
  end.

Definition print (s : string) : M unit := λ w,
  ({| fs := fs w; stdout := stdout w ++ [s]; calls := calls w |}, Ok tt).

Definition log (c : call) : M unit := λ w,
  ({| fs := fs w; stdout := stdout w; calls := calls w ++ [c] |}, Ok tt).

(** A library call that reads the file tree. *)
Definition reading {A : Type} (f : node → result A) : M A := λ w, (w, f (fs w)).

(** A library call that changes the file tree when it succeeds. *)
Definition writing (f : node → result node) : M unit := λ w,
  match f (fs w) with
  | Ok r => ({| fs := r; stdout := stdout w; calls := calls w |}, Ok tt)
  | Raised e => (w, Raised e)
  end.

(** A library call that may change the file tree even when it raises. *)
Definition acting {A : Type} (f : node → node * result A) : M A := λ w,
  ({| fs := (f (fs w)).1; stdout := stdout w; calls := calls w |}, (f (fs w)).2).

(** [if c: m] *)
Definition when (c : bool) (m : M unit) : M unit := if c then m else mret tt.

(** [for x in l: f x] *)
Fixpoint for_each {A : Type} (l : list A) (f : A → M unit) : M unit :=
  match l with
  | [] => mret tt
  | x :: l' => f x ;; for_each l' f
  end.

(** ** The script *)

Section Script.

Variable env : environment.

(** *** Library calls, each entered in the call log *)

(** [p.exists()] *)
Definition Path_exists (p : PurePath) : M bool :=
  reading (λ r, Ok (os_path_exists (cwd env) (str p) r)).

(** [YOLO(model_path)] *)
Definition call_YOLO (model_path : string) : M yolo_model :=
  log (CallYOLO model_path) ;;
  reading (λ r, YOLO env r model_path).

(** [model.export(...)] with the given keyword arguments *)
Definition call_export (model : yolo_model) (args : export_args) : M string :=
  log (CallExport args) ;;
  acting (export env model args).

(** [p.mkdir(parents=True, exist_ok=True)] *)
Definition call_mkdir (p : PurePath) : M unit :=
  log (CallMkdir p) ;;
  writing (path_mkdir (cwd env) p).

(** [shutil.move(src, dst)] *)
Definition call_move (src dst : string) : M unit :=
  log (CallMove src dst) ;;
  writing (shutil_move (cwd env) src dst).

(** [import onnx] *)
Definition call_import_onnx : M unit :=
  log CallImportOnnx ;;
  match import_onnx env with
  | Some e => raise e
  | None => mret tt
  end.

(** [onnx.load(path)] *)
Definition call_onnx_load (path : string) : M onnx_model :=
  log (CallOnnxLoad path) ;;
  reading (λ r, onnx_load env r path).

(** [onnx.checker.check_model(m)] *)
Definition call_check_model (m : onnx_model) : M unit :=
  log CallCheckModel ;;
  match check_model env m with
  | Some e => raise e
  | None => mret tt
  end.

(** *** [convert_yolo_to_onnx] *)

(** Lines 41-54: load the model and print what it is. *)
Definition load_model (model_path : string) : M yolo_model :=
  try_except
    (model ← call_YOLO model_path;
     print "✓ Model loaded successfully!" ;;
     print (nl +:+ "Model Information:") ;;
     print ("  Type: " +:+ default "YOLO" (model_type model)) ;;
     match names model with
     | Some ns =>
         print ("  Classes: " +:+ str_int (Z.of_nat (length ns)) +:+ " classes") ;;
         print (if bool_decide (5 < Z.of_nat (length ns))
                then "  Class names: " +:+ repr_names env (take 5 ns) +:+ "..."
                else "  Class names: " +:+ repr_names env ns)
     | None => mret tt
     end ;;
     mret model)
    (λ e, raise (Exn RuntimeError ("Failed to load YOLO model: " +:+ str_exn e))).

(** Line 75: [output_path and str(exported_path) != str(output_path)] *)
Definition needs_move (output_path : option string) (exported_path : string) : bool :=
  match output_path with
  | Some o => truthy o && negb (String.eqb exported_path o)
  | None => false
  end.

(** Lines 74-80: move the exported file when another place was asked for. *)
Definition relocate (output_path : option string) (exported_path : string)
  : M path_value :=
  match output_path with
  | Some o =>
      if needs_move output_path exported_path then
        let output_path := Path o in
        call_mkdir (parent output_path) ;;
        call_move exported_path (str output_path) ;;
        mret (AsPath output_path)
      else mret (AsStr exported_path)
  | None => mret (AsStr exported_path)
  end.

(** Lines 96-97 and 100-101: a dimension prints as its value when that
    is positive and as its name otherwise. *)
Definition shape_of (v : value_info) : list (Z + string) :=
  map (λ d, if bool_decide (0 < dim_value d) then inl (dim_value d)
            else inr (dim_param d))
      (vi_dims v).

Definition print_shape (v : value_info) : M unit :=
  print ("    " +:+ vi_name v +:+ ": " +:+ repr_shape env (shape_of v)).

(** Lines 84-108: look at the exported file; nothing raised here leaves
    the block. *)
Definition verify (exported_path : path_value) : M unit :=
  try_except
    (call_import_onnx ;;
     onnx_model ← call_onnx_load (str_value exported_path);
     call_check_model onnx_model ;;
     print "✓ ONNX model verification passed!" ;;
     print (nl +:+ "ONNX Model Info:") ;;
     print ("  Inputs: " +:+ repr_names env (map vi_name (graph_input onnx_model))) ;;
     print ("  Outputs: " +:+ repr_names env (map vi_name (graph_output onnx_model))) ;;
     for_each (graph_input onnx_model) print_shape ;;
     for_each (graph_output onnx_model) print_shape)
    (λ e,
       if is_ImportError e then
         print "Warning: onnx package not installed. Skipping verification." ;;
         print "  Install with: pip install onnx"
       else
         print ("Warning: ONNX verification failed: " +:+ str_exn e)).

(** Lines 62-113: export, move, report, verify. *)
Definition export_model (model : yolo_model) (output_path : option string)
    (imgsz : Z) (simplify : bool) (opset : Z) : M path_value :=
  try_except
    (exported_path ← call_export model
       {| format := "onnx"; imgsz := imgsz; simplify := simplify;
          opset := opset; nms := true; dynamic := false |};
     exported_path ← relocate output_path exported_path;
     print (nl +:+ "✓ Successfully exported model to: " +:+ str_value exported_path) ;;
     verify exported_path ;;
     mret exported_path)
    (λ e, raise (Exn RuntimeError ("Failed to export model to ONNX: " +:+ str_exn e))).

Definition convert_yolo_to_onnx (model_path : string) (output_path : option string)
    (imgsz : Z) (simplify : bool) (opset : Z) : M path_value :=
  print (str_repeat "=" 60) ;;
  print "YOLO to ONNX Converter for Pothole Segmentation Model" ;;
  print (str_repeat "=" 60) ;;
  print (nl +:+ "Loading YOLO model from: " +:+ model_path) ;;
  found ← Path_exists (Path model_path);
  when (negb found)
    (raise (Exn FileNotFoundError ("Model file not found: " +:+ model_path))) ;;
  model ← load_model model_path;
  print (nl +:+ "Exporting to ONNX format...") ;;
  print ("  Image size: " +:+ str_int imgsz) ;;
  print ("  Opset version: " +:+ str_int opset) ;;
  print ("  Simplify: " +:+ str_bool simplify) ;;
  export_model model output_path imgsz simplify opset.

(** *** [main] and the module body *)

(** How a run of the interpreter ends. *)
Inductive completion : Type :=
  | Returned
  | SystemExit (code : Z)
  | Uncaught (e : exn).

Definition exit_status (c : completion) : Z :=
  match c with
  | Returned => 0
  | SystemExit code => code
  | Uncaught _ => 1
  end.

(** Lines 119-127: the two paths, from the defaults and [sys.argv]. *)
Definition default_model_path (file : string) : PurePath :=
  parent (parent (Path file)) </> "public" </> "models" </> "yolov8n-seg-pothole.pt".

Definition default_output_path (file : string) : PurePath :=
  parent (parent (Path file)) </> "public" </> "models" </> "yolov8n-seg-pothole.onnx".

Definition resolve_paths (file : string) (argv : list string) : PurePath * PurePath :=
  let model_path := default_model_path file in
  let output_path := default_output_path file in
  let model_path :=
    if bool_decide (1 < length argv)%nat
    then Path (default "" (argv !! 1%nat)) else model_path in
  let output_path :=
    if bool_decide (2 < length argv)%nat
    then Path (default "" (argv !! 2%nat)) else output_path in
  (model_path, output_path).

Definition main (file : string) (argv : list string) : world → world * completion :=
  let '(model_path, output_path) := resolve_paths file argv in
  λ w,
    match
      (exported_path ← convert_yolo_to_onnx (str model_path) (Some (str output_path))
                         640 true 17;
       print (nl +:+ str_repeat "=" 60) ;;
       print "Conversion completed successfully!" ;;
       print ("ONNX model saved to: " +:+ str_value exported_path) ;;
       print (str_repeat "=" 60)) w
    with
    | (w', Ok _) => (w', Returned)
    | (w', Raised e) =>
        match
          (print (nl +:+ "✗ Error: " +:+ str_exn e) ;;
           print (nl +:+ "Troubleshooting tips:") ;;
           print "1. Ensure ultralytics is installed: pip install ultralytics" ;;
           print "2. Check that the model file is a valid YOLO checkpoint (.pt file)" ;;
           print "3. Verify the model path is correct" ;;
           print "4. For segmentation models, ensure you're using a YOLO segmentation model")
            w'
        with
        | (w'', _) => (w'', SystemExit 1)
        end
    end.

(** Lines 10-15 and 154-155: the import at the top, then [main]. *)
Definition script (file : string) (argv : list string) : world → world * completion :=
  λ w,
    match import_ultralytics env with
    | None => main file argv w
    | Some e =>
        if is_ImportError e then
          match
            (print "Error: ultralytics package not found." ;;
             print "Please install it with: pip install ultralytics") w
          with
          | (w', _) => (w', SystemExit 1)
          end
        else (w, Uncaught e)
    end.

End Script.


(** * Vocabulary of the properties *)

(** The world after some more lines were printed. *)
Definition say (lines : list string) (w : world) : world :=
  {| fs := fs w; stdout := stdout w ++ lines; calls := calls w |}.

(** The world after some more calls were logged. *)
Definition called (cs : list call) (w : world) : world :=
  {| fs := fs w; stdout := stdout w; calls := calls w ++ cs |}.

(** [Path(model_path).exists()] in the tree [r]. *)
Definition checkpoint_exists (env : environment) (model_path : string) (r : node) : bool :=
  os_path_exists (cwd env) (str (Path model_path)) r.

(** The keyword arguments the driver hands to [model.export]. *)
Definition driver_args (imgsz : Z) (simplify : bool) (opset : Z) : export_args :=
  {| format := "onnx"; imgsz := imgsz; simplify := simplify; opset := opset;
     nms := true; dynamic := false |}.

(** The place a path string names. *)
Definition place (env : environment) (s : string) : loc := locate (cwd env) s.

(** What the validator objects to, if anything, for the file named [p] in
    the tree [r]: the import, the load or the check may raise. *)
Definition validator_failure (env : environment) (r : node) (p : string) : option exn :=
  match import_onnx env with
  | Some e => Some e
  | None =>
      match onnx_load env r p with
      | Raised e => Some e
      | Ok m => check_model env m
      end
  end.

(** The lines the driver prints for a validator failure. *)
Definition warning_lines (e : exn) : list string :=
  if is_ImportError e then
    ["Warning: onnx package not installed. Skipping verification.";
     "  Install with: pip install onnx"]
  else ["Warning: ONNX verification failed: " +:+ str_exn e].

(** The relocation step seen from the file tree alone. *)
Definition relocate_tree (env : environment) (output_path : option string)
    (exported_path : string) (r : node) : node * result path_value :=
  let out := relocate env output_path exported_path
               {| fs := r; stdout := []; calls := [] |} in
  (fs out.1, out.2).

(** The calls of the verification block. *)
Definition is_verify_call (c : call) : bool :=
  match c with
  | CallImportOnnx | CallOnnxLoad _ | CallCheckModel => true
  | _ => false
  end.

(** A path object as [Path] builds them: a root of at most two slashes
    and components that are names. *)
Definition no_slash (s : string) : Prop := split_slash s = [s].

Definition wf_path (p : PurePath) : Prop :=
  (root p = "" ∨ root p = "/" ∨ root p = "//")
  ∧ Forall (λ c, is_name c = true ∧ no_slash c) (parts p).

(** The world after a step: the tree it left, the lines it printed and
    the calls it logged. *)
Definition evolve (r : node) (lines : list string) (cs : list call) (w : world) : world :=
  {| fs := r; stdout := stdout w ++ lines; calls := calls w ++ cs |}.

(** The exception the driver raises for a failure [e] of the load or of
    the export block. *)
Definition load_failure (e : exn) : exn :=
  Exn RuntimeError ("Failed to load YOLO model: " +:+ str_exn e).

Definition export_failure (e : exn) : exn :=
  Exn RuntimeError ("Failed to export model to ONNX: " +:+ str_exn e).

Definition not_found (model_path : string) : exn :=
  Exn FileNotFoundError ("Model file not found: " +:+ model_path).

(** What [main] prints after the driver returned [p], and after it raised [e]. *)
Definition success_report (p : path_value) : list string :=
  [nl +:+ str_repeat "=" 60;
   "Conversion completed successfully!";
   "ONNX model saved to: " +:+ str_value p;
   str_repeat "=" 60].

Definition failure_report (e : exn) : list string :=
  [nl +:+ "✗ Error: " +:+ str_exn e;
   nl +:+ "Troubleshooting tips:";
   "1. Ensure ultralytics is installed: pip install ultralytics";
   "2. Check that the model file is a valid YOLO checkpoint (.pt file)";
   "3. Verify the model path is correct";
   "4. For segmentation models, ensure you're using a YOLO segmentation model"].

(** The driver as [main] calls it. *)
Definition main_driver (env : environment) (file : string) (argv : list string)
  : M path_value :=
  convert_yolo_to_onnx env (str (resolve_paths file argv).1)
    (Some (str (resolve_paths file argv).2)) 640 true 17.

(** The calls the relocation step makes on the tree [r]: none without a
    move; otherwise the directory creation and, when that succeeds, the
    move. *)
Definition relocation_calls (env : environment) (output_path : option string)
    (exported_path : string) (r : node) : list call :=
  match output_path with
  | Some o =>
      if needs_move output_path exported_path then
        CallMkdir (parent (Path o)) ::
        match path_mkdir (cwd env) (parent (Path o)) r with
        | Ok _ => [CallMove exported_path (str (Path o))]
        | Raised _ => []
        end
      else []
  | None => []
  end.

(** The line that reports the export. *)
Definition success_line (p : path_value) : string :=
  nl +:+ "✓ Successfully exported model to: " +:+ str_value p.

(** The keyword arguments of every export [main] causes. *)
Definition fixed_export_args : export_args :=
  {| format := "onnx"; imgsz := 640; simplify := true; opset := 17;
     nms := true; dynamic := false |}.

(** ** Sentences of the specification that the code does not bear out *)

(** The sentence "when the export call fails no file is left at the
    requested output path and the tool exits non-zero", for one run of
    [main]. *)
Definition no_output_left_on_export_failure
    (env : environment) (file : string) (argv : list string) (w : world) : Prop :=
  let mp := str (resolve_paths file argv).1 in
  let out := str (resolve_paths file argv).2 in
  ∀ m r e,
    checkpoint_exists env mp (fs w) = true →
    YOLO env (fs w) mp = Ok m →
    export env m fixed_export_args (fs w) = (r, Raised e) →
    is_file (place env out) (fs (main env file argv w).1) = false
    ∧ exit_status (main env file argv w).2 ≠ 0.


(** The sentence "a second run with the same input and the same explicit
    output path ends with the output at the requested path, the earlier
    output causing no failure", for two runs of [main] in a row. *)
Definition second_run_succeeds
    (env : environment) (file : string) (argv : list string) (w : world) : Prop :=
  (main env file argv w).2 = Returned →
  (main env file argv (main env file argv w).1).2 = Returned
  ∧ is_file (place env (str (resolve_paths file argv).2))
      (fs (main env file argv (main env file argv w).1).1) = true.

(** The sentence "after a successful export the file is moved if and only
    if the output path is non-empty and its string differs from the
    string the export returned", for one run of the driver; it is meant
    for a run that starts with an empty call log. *)
Definition moved_iff_strings_differ
    (env : environment) (mp : string) (out : option string)
    (i : Z) (s : bool) (op : Z) (w : world) : Prop :=
  ∀ m r e,
    checkpoint_exists env mp (fs w) = true →
    YOLO env (fs w) mp = Ok m →
    export env m (driver_args i s op) (fs w) = (r, Ok e) →
    ((∃ src dst, CallMove src dst ∈ calls (convert_yolo_to_onnx env mp out i s op w).1)
     ↔ needs_move out e = true).

(** ** A small installation to run the script on *)

Module Demo.

(** [p.with_suffix(".onnx")] for a name ending in [.pt]. *)
Fixpoint with_onnx_suffix (s : string) : string :=
  if String.eqb s ".pt" then ".onnx"
  else match s with
       | EmptyString => ".onnx"
       | String c s' => String c (with_onnx_suffix s')
       end.

Definition demo_cwd : loc := ["w"].

Definition demo_model (p : string) : yolo_model :=
  {| ckpt_path := p; model_type := Some "SegmentationModel";
     names := Some ["pothole"] |}.

(** A checkpoint is a file holding ["weights"]. *)
Definition demo_YOLO (r : node) (p : string) : result yolo_model :=
  match lookup_path (locate demo_cwd p) r with
  | Some (File "weights") => Ok (demo_model p)
  | _ => Raised (Exn (OtherException "UnpicklingError") "invalid load key")
  end.

(** The export writes the graph next to the checkpoint and returns its
    name, as the model library does. *)
Definition demo_export (m : yolo_model) (a : export_args) (r : node)
  : node * result string :=
  let target := with_onnx_suffix (ckpt_path m) in
  match put (locate demo_cwd target) (File "graph") r with
  | Some r' => (r', Ok target)
  | None => (r, Raised (Exn OSError "cannot write the graph"))
  end.

(** An export that writes part of the graph and then gives up. *)
Definition demo_export_partial (m : yolo_model) (a : export_args) (r : node)
  : node * result string :=
  let target := with_onnx_suffix (ckpt_path m) in
  match put (locate demo_cwd target) (File "gra") r with
  | Some r' => (r', Raised (Exn RuntimeError "could not finish the graph"))
  | None => (r, Raised (Exn OSError "cannot write the graph"))
  end.

Definition demo_graph : onnx_model :=
  {| graph_input :=
       [ {| vi_name := "images";
            vi_dims := [ {| dim_value := 1; dim_param := "" |};
                         {| dim_value := 3; dim_param := "" |};
                         {| dim_value := 640; dim_param := "" |};
                         {| dim_value := 640; dim_param := "" |} ] |} ];
     graph_output :=
       [ {| vi_name := "output0";
            vi_dims := [ {| dim_value := 1; dim_param := "" |};
                         {| dim_value := 0; dim_param := "anchors" |} ] |} ] |}.

(** A graph file is a file holding ["graph"]. *)
Definition demo_onnx_load (r : node) (p : string) : result onnx_model :=
  match lookup_path (locate demo_cwd p) r with
  | Some (File "graph") => Ok demo_graph
  | _ => Raised (Exn (OtherException "DecodeError") "Error parsing message")
  end.

Definition demo_repr_names (l : list string) : string :=
  "[" +:+ str_join ", " (map quoted l) +:+ "]".

Definition demo_repr_shape (l : list (Z + string)) : string :=
  "[" +:+ str_join ", "
            (map (λ x, match x with inl z => str_int z | inr s => quoted s end) l)
      +:+ "]".

(** The installation, with the export, the validator's import and the
    validator's verdict left open. *)
Definition demo_env
    (exp : yolo_model → export_args → node → node * result string)
    (imp : option exn) (chk : onnx_model → option exn) : environment :=
  {| cwd := demo_cwd; import_ultralytics := None; YOLO := demo_YOLO;
     export := exp; import_onnx := imp; onnx_load := demo_onnx_load;
     check_model := chk;
     repr_names := demo_repr_names; repr_shape := demo_repr_shape |}.

(** Everything works. *)
Definition good_env : environment := demo_env demo_export None (λ _, None).

(** The validator is not installed. *)
Definition no_onnx_env : environment :=
  demo_env demo_export
    (Some (Exn ModuleNotFoundError "No module named 'onnx'")) (λ _, None).

(** The validator rejects every graph. *)
Definition strict_env : environment :=
  demo_env demo_export None
    (λ _, Some (Exn (OtherException "ValidationError") "graph is not valid")).

(** The export fails half way. *)
Definition partial_env : environment :=
  demo_env demo_export_partial None (λ _, None).

(** The working directory [/w] holds the checkpoint [m.pt], a file
    [bad.pt] that is no checkpoint, an empty directory [out] and the
    project's [public/models] with the default checkpoint. *)
Definition demo_fs : node :=
  Dir {[ "w" :=
           Dir {[ "m.pt" := File "weights";
                  "bad.pt" := File "not a checkpoint";
                  "out" := Dir ∅;
                  "public" :=
                    Dir {[ "models" :=
                             Dir {[ "yolov8n-seg-pothole.pt" := File "weights" ]} ]} ]} ]}.

Definition demo_world : world := {| fs := demo_fs; stdout := []; calls := [] |}.

Definition demo_file : string := "/w/scripts/convert_yolov8n-seg_to_onnx.py".

(** The tree after the export of [m.pt], and after the directories
    [new/dir] were created in it. *)
Definition after_export : node :=
  (demo_export (demo_model "m.pt") (driver_args 640 true 17) demo_fs).1.


(** The world after a first conversion of [m.pt] to [out/x.onnx], and
    the tree the export of a second conversion leaves from there. *)
Definition after_first_run : world :=
  (convert_yolo_to_onnx good_env "m.pt" (Some "out/x.onnx") 640 true 17 demo_world).1.

Definition second_export : node :=
  (demo_export (demo_model "m.pt") (driver_args 640 true 17) (fs after_first_run)).1.

End Demo.

(** ** Vocabulary of the further properties *)

(** The place of a call in a run: load, export, create directories,
    move, import the validator, load the graph, check it. *)
Definition phase_rank (c : call) : nat :=
  match c with
  | CallYOLO _ => 0
  | CallExport _ => 1
  | CallMkdir _ => 2
  | CallMove _ _ => 3
  | CallImportOnnx => 4
  | CallOnnxLoad _ => 5
  | CallCheckModel => 6
  end.

(** Each number is below the next. *)
Fixpoint ascending (l : list nat) : bool :=
  match l with
  | a :: t =>
      match t with
      | b :: _ => (a <? b)%nat && ascending t
      | [] => true
      end
  | [] => true
  end.

(** The calls of a run come in the order of their phases, none twice. *)
Definition in_phase_order (cs : list call) : bool :=
  ascending (map phase_rank cs).

(** The calls of the verification block for the file named [q] in the
    tree [r]: each step is reached when the one before did not raise. *)
Definition verify_calls (env : environment) (r : node) (q : string) : list call :=
  CallImportOnnx ::
  match import_onnx env with
  | Some _ => []
  | None =>
      CallOnnxLoad q ::
      match onnx_load env r q with
      | Raised _ => []
      | Ok _ => [CallCheckModel]
      end
  end.

(** The line printed for one input or output of the graph. *)
Definition shape_line (env : environment) (v : value_info) : string :=
  "    " +:+ vi_name v +:+ ": " +:+ repr_shape env (shape_of v).

(** What the verification block prints for a graph that passes. *)
Definition verification_report (env : environment) (g : onnx_model) : list string :=
  ["✓ ONNX model verification passed!";
   nl +:+ "ONNX Model Info:";
   "  Inputs: " +:+ repr_names env (map vi_name (graph_input g));
   "  Outputs: " +:+ repr_names env (map vi_name (graph_output g))]
  ++ map (shape_line env) (graph_input g)
  ++ map (shape_line env) (graph_output g).

(** What the verification block prints for the file named [q] in [r]. *)
Definition verify_lines (env : environment) (r : node) (q : string) : list string :=
  match import_onnx env with
  | Some x => warning_lines x
  | None =>
      match onnx_load env r q with
      | Raised x => warning_lines x
      | Ok g =>
          match check_model env g with
          | Some x => warning_lines x
          | None => verification_report env g
          end
      end
  end.

(** A run of the driver from the tree [r0], told without the monad: the
    tree it leaves, the calls it makes and what it returns or raises. *)
Definition driver_outcome (env : environment) (mp : string) (out : option string)
    (i : Z) (s : bool) (op : Z) (r0 : node) : node * list call * result path_value :=
  if checkpoint_exists env mp r0 then
    match YOLO env r0 mp with
    | Raised x => (r0, [CallYOLO mp], Raised (load_failure x))
    | Ok m =>
        match export env m (driver_args i s op) r0 with
        | (r, Raised x) =>
            (r, [CallYOLO mp; CallExport (driver_args i s op)],
             Raised (export_failure x))
        | (r, Ok e) =>
            match relocate_tree env out e r with
            | (r', Raised x) =>
                (r', CallYOLO mp :: CallExport (driver_args i s op)
                     :: relocation_calls env out e r,
                 Raised (export_failure x))
            | (r', Ok p) =>
                (r', CallYOLO mp :: CallExport (driver_args i s op)
                     :: relocation_calls env out e r
                     ++ verify_calls env r' (str_value p),
                 Ok p)
            end
        end
    end
  else (r0, [], Raised (not_found mp)).

(** * Properties *)

(** ** Running the monad *)

Lemma bind_run {A B : Type} (m : M A) (f : A → M B) (w : world) :
  (m ≫= f) w =
  match m w with
  | (w', Ok a) => f a w'
  | (w', Raised e) => (w', Raised e)
  end.
Proof. reflexivity. Qed.

Lemma print_run (s : string) (w : world) : print s w = (say [s] w, Ok tt).
Proof. reflexivity. Qed.

Lemma log_run (c : call) (w : world) : log c w = (called [c] w, Ok tt).
Proof. reflexivity. Qed.

Lemma say_say (l1 l2 : list string) (w : world) : say l2 (say l1 w) = say (l1 ++ l2) w.
Proof. unfold say; cbn. by rewrite <-(assoc_L (++)). Qed.

Lemma for_each_print_shape (env : environment) (l : list value_info) (w : world) :
  for_each l (print_shape env) w =
  (say (map (λ v, "    " +:+ vi_name v +:+ ": " +:+ repr_shape env (shape_of v)) l) w,
   Ok tt).
Proof.
  revert w. induction l as [|v l IH]; intros w.
  - cbn. unfold say. rewrite (right_id_L [] (++)). by destruct w.
  - cbn [for_each map]. rewrite bind_run. unfold print_shape at 1.
    rewrite print_run, IH, say_say. done.
Qed.

Lemma evolve_evolve (r1 r2 : node) (l1 l2 : list string) (c1 c2 : list call) (w : world) :
  evolve r2 l2 c2 (evolve r1 l1 c1 w) = evolve r2 (l1 ++ l2) (c1 ++ c2) w.
Proof. unfold evolve; cbn. by rewrite <-!(assoc_L (++)). Qed.

Lemma say_evolve (r : node) (l l' : list string) (cs : list call) (w : world) :
  say l' (evolve r l cs w) = evolve r (l ++ l') cs w.
Proof. unfold say, evolve; cbn. by rewrite <-(assoc_L (++)). Qed.

Lemma called_evolve (r : node) (l : list string) (cs cs' : list call) (w : world) :
  called cs' (evolve r l cs w) = evolve r l (cs ++ cs') w.
Proof. unfold called, evolve; cbn. by rewrite <-(assoc_L (++)). Qed.

Lemma say_as_evolve (l : list string) (w : world) : say l w = evolve (fs w) l [] w.
Proof. unfold say, evolve. by rewrite (right_id_L [] (++)). Qed.

Lemma called_as_evolve (cs : list call) (w : world) : called cs w = evolve (fs w) [] cs w.
Proof. unfold called, evolve. by rewrite (right_id_L [] (++)). Qed.

Lemma fs_say (l : list string) (w : world) : fs (say l w) = fs w.
Proof. reflexivity. Qed.

Lemma evolve_id (w : world) : evolve (fs w) [] [] w = w.
Proof. unfold evolve. rewrite !(right_id_L [] (++)). by destruct w. Qed.

(** Run the prints, logs and binds at the head of a monadic term. *)
Ltac run :=
  repeat first [progress cbn [mret M_ret]
               | rewrite print_run | rewrite log_run
               | rewrite for_each_print_shape | rewrite bind_run].

(** Bring a world built by prints and logs into the form [evolve _ _ _ w]. *)
Ltac normalize :=
  rewrite ?say_say;
  repeat first [rewrite say_evolve | rewrite called_evolve | rewrite evolve_evolve
               | rewrite say_as_evolve | rewrite called_as_evolve];
  cbn [fs stdout calls evolve app].

(** ** The phases of the driver *)

Section Phases.

Context (env : environment).

Lemma call_YOLO_run (mp : string) (w : world) :
  call_YOLO env mp w = (called [CallYOLO mp] w, YOLO env (fs w) mp).
Proof. reflexivity. Qed.

Lemma load_model_ok (mp : string) (m : yolo_model) (w : world) :
  YOLO env (fs w) mp = Ok m →
  ∃ lines, load_model env mp w = (evolve (fs w) lines [CallYOLO mp] w, Ok m).
Proof.
  intros Hm. unfold load_model, try_except.
  rewrite bind_run, call_YOLO_run, Hm.
  destruct (names m) as [ns|]; run; normalize; eexists; reflexivity.
Qed.

Lemma load_model_raised (mp : string) (e : exn) (w : world) :
  YOLO env (fs w) mp = Raised e →
  load_model env mp w = (evolve (fs w) [] [CallYOLO mp] w, Raised (load_failure e)).
Proof.
  intros Hm. unfold load_model, try_except.
  rewrite bind_run, call_YOLO_run, Hm. unfold raise.
  by rewrite called_as_evolve.
Qed.

Lemma call_mkdir_run (p : PurePath) (w : world) :
  call_mkdir env p w =
  match path_mkdir (cwd env) p (fs w) with
  | Ok r => (evolve r [] [CallMkdir p] w, Ok tt)
  | Raised e => (evolve (fs w) [] [CallMkdir p] w, Raised e)
  end.
Proof.
  unfold call_mkdir, writing. run. cbn [fs called].
  destruct (path_mkdir (cwd env) p (fs w)); by rewrite ?called_as_evolve.
Qed.

Lemma call_move_run (src dst : string) (w : world) :
  call_move env src dst w =
  match shutil_move (cwd env) src dst (fs w) with
  | Ok r => (evolve r [] [CallMove src dst] w, Ok tt)
  | Raised e => (evolve (fs w) [] [CallMove src dst] w, Raised e)
  end.
Proof.
  unfold call_move, writing. run. cbn [fs called].
  destruct (shutil_move (cwd env) src dst (fs w)); by rewrite ?called_as_evolve.
Qed.

(** Without a move the relocation step does nothing. *)
Lemma relocate_stay (out : option string) (e : string) (w : world) :
  needs_move out e = false →
  relocate env out e w = (w, Ok (AsStr e)).
Proof.
  intros Hn. unfold relocate. rewrite Hn. by destruct out.
Qed.

(** With a move it creates the directories, then moves. *)
Lemma relocate_move (o e : string) (w : world) :
  needs_move (Some o) e = true →
  relocate env (Some o) e w =
  match path_mkdir (cwd env) (parent (Path o)) (fs w) with
  | Raised x => (evolve (fs w) [] [CallMkdir (parent (Path o))] w, Raised x)
  | Ok r1 =>
      match shutil_move (cwd env) e (str (Path o)) r1 with
      | Raised x =>
          (evolve r1 [] [CallMkdir (parent (Path o)); CallMove e (str (Path o))] w,
           Raised x)
      | Ok r2 =>
          (evolve r2 [] [CallMkdir (parent (Path o)); CallMove e (str (Path o))] w,
           Ok (AsPath (Path o)))
      end
  end.
Proof.
  intros Hn. unfold relocate. rewrite Hn.
  rewrite bind_run, call_mkdir_run.
  destruct (path_mkdir (cwd env) (parent (Path o)) (fs w)) as [r1|x]; [|done].
  rewrite bind_run, call_move_run. cbn [fs evolve].
  destruct (shutil_move (cwd env) e (str (Path o)) r1) as [r2|x];
    by rewrite evolve_evolve.
Qed.

(** The step reads the file tree only, prints nothing, and adds its
    own calls to the log. *)
Lemma relocate_tree_spec (out : option string) (e : string) (w : world) :
  relocate env out e w =
  (evolve (relocate_tree env out e (fs w)).1 [] (relocation_calls env out e (fs w)) w,
   (relocate_tree env out e (fs w)).2).
Proof.
  unfold relocate_tree, relocation_calls.
  destruct (needs_move out e) eqn:Hn.
  - destruct out as [o|]; [|done].
    rewrite !relocate_move by done. cbn [fs].
    destruct (path_mkdir (cwd env) (parent (Path o)) (fs w)) as [r1|x]; [|done].
    by destruct (shutil_move (cwd env) e (str (Path o)) r1) as [r2|x].
  - rewrite !relocate_stay by done. cbn [fs fst snd].
    destruct out; by rewrite evolve_id.
Qed.

Lemma verify_calls_run (p : path_value) (w : world) :
  ∃ lines cs,
    verify env p w = (evolve (fs w) lines cs w, Ok tt)
    ∧ forallb is_verify_call cs = true
    ∧ (∀ e, validator_failure env (fs w) (str_value p) = Some e →
            lines = warning_lines e).
Proof.
  unfold verify, try_except, validator_failure, warning_lines.
  unfold call_import_onnx, call_onnx_load, call_check_model, reading, raise.
  run.
  destruct (import_onnx env) as [x|].
  { destruct (is_ImportError x) eqn:Hx; run; normalize;
      (do 2 eexists; split; [reflexivity|]; split; [done|]);
      intros e [= <-]; by rewrite Hx. }
  run. cbn [fs called].
  destruct (onnx_load env (fs w) (str_value p)) as [g|x].
  2:{ destruct (is_ImportError x) eqn:Hx; run; normalize;
        (do 2 eexists; split; [reflexivity|]; split; [done|]);
        intros e [= <-]; by rewrite Hx. }
  run.
  destruct (check_model env g) as [x|].
  { destruct (is_ImportError x) eqn:Hx; run; normalize;
      (do 2 eexists; split; [reflexivity|]; split; [done|]);
      intros e [= <-]; by rewrite Hx. }
  run. normalize.
  do 2 eexists; split; [reflexivity|]; split; [done|]. intros e [=].
Qed.

Lemma call_export_run (m : yolo_model) (a : export_args) (w : world) :
  call_export env m a w =
  (evolve (export env m a (fs w)).1 [] [CallExport a] w, (export env m a (fs w)).2).
Proof.
  unfold call_export, acting. run. cbn [fs stdout calls called].
  unfold evolve. by rewrite (right_id_L [] (++)).
Qed.

(** The export block, case by case: the export raises; the relocation
    raises; both succeed and the verification, which cannot raise,
    follows. *)
Lemma export_model_run (m : yolo_model) (out : option string)
    (i : Z) (s : bool) (o : Z) (w : world) (r : node) (res : result string) :
  export env m (driver_args i s o) (fs w) = (r, res) →
  match res with
  | Raised x =>
      export_model env m out i s o w =
      (evolve r [] [CallExport (driver_args i s o)] w, Raised (export_failure x))
  | Ok e =>
      let r' := (relocate_tree env out e r).1 in
      let cs := relocation_calls env out e r in
      match (relocate_tree env out e r).2 with
      | Raised x =>
          export_model env m out i s o w =
          (evolve r' [] (CallExport (driver_args i s o) :: cs) w,
           Raised (export_failure x))
      | Ok p =>
          ∃ lines vs,
            export_model env m out i s o w =
            (evolve r' (success_line p :: lines)
               (CallExport (driver_args i s o) :: cs ++ vs) w, Ok p)
            ∧ forallb is_verify_call vs = true
            ∧ (∀ x, validator_failure env r' (str_value p) = Some x →
                    lines = warning_lines x)
      end
  end.
Proof.
  intros He. unfold export_model, try_except.
  rewrite bind_run. fold (driver_args i s o). rewrite call_export_run, He.
  cbn [fst snd]. destruct res as [e|x]; [|done].
  rewrite bind_run, relocate_tree_spec. cbn [fs evolve].
  destruct (relocate_tree env out e r) as [r' [p|x]] eqn:Hr; cbn [fst snd].
  - fold (evolve r' [] (relocation_calls env out e r)
            (evolve r [] [CallExport (driver_args i s o)] w)).
    rewrite evolve_evolve. run. fold (success_line p).
    match goal with |- context [verify env p ?w0] =>
      destruct (verify_calls_run p w0) as (lines & vs & -> & Hvs & Hl) end.
    normalize. exists lines, vs. split; [|split; [done|]].
    + reflexivity.
    + intros x Hx. apply Hl. exact Hx.
  - fold (evolve r' [] (relocation_calls env out e r)
            (evolve r [] [CallExport (driver_args i s o)] w)).
    by rewrite evolve_evolve.
Qed.

Lemma Path_exists_run (mp : string) (w : world) :
  Path_exists env (Path mp) w = (w, Ok (checkpoint_exists env mp (fs w))).
Proof. reflexivity. Qed.

Lemma driver_missing (mp : string) (out : option string) (i : Z) (s : bool) (o : Z)
    (w : world) :
  checkpoint_exists env mp (fs w) = false →
  ∃ lines, convert_yolo_to_onnx env mp out i s o w =
           (evolve (fs w) lines [] w, Raised (not_found mp)).
Proof.
  intros Hx. unfold convert_yolo_to_onnx. run.
  rewrite Path_exists_run, !fs_say, Hx. cbn [negb when]. unfold raise. run.
  normalize. eexists. reflexivity.
Qed.

Lemma driver_load_raised (mp : string) (out : option string) (i : Z) (s : bool) (o : Z)
    (w : world) (e : exn) :
  checkpoint_exists env mp (fs w) = true →
  YOLO env (fs w) mp = Raised e →
  ∃ lines, convert_yolo_to_onnx env mp out i s o w =
           (evolve (fs w) lines [CallYOLO mp] w, Raised (load_failure e)).
Proof.
  intros Hx Hm. unfold convert_yolo_to_onnx. run.
  rewrite Path_exists_run, !fs_say, Hx. cbn [negb when]. run.
  rewrite (load_model_raised mp e) by exact Hm.
  normalize. eexists. reflexivity.
Qed.

Lemma driver_found (mp : string) (out : option string) (i : Z) (s : bool) (o : Z)
    (w : world) (m : yolo_model) :
  checkpoint_exists env mp (fs w) = true →
  YOLO env (fs w) mp = Ok m →
  ∃ lines, convert_yolo_to_onnx env mp out i s o w =
           export_model env m out i s o (evolve (fs w) lines [CallYOLO mp] w).
Proof.
  intros Hx Hm. unfold convert_yolo_to_onnx. run.
  rewrite Path_exists_run, !fs_say, Hx. cbn [negb when]. run.
  destruct (load_model_ok mp m (say
    [str_repeat "=" 60; "YOLO to ONNX Converter for Pothole Segmentation Model";
     str_repeat "=" 60; nl +:+ "Loading YOLO model from: " +:+ mp] w))
    as (lines & Hl); [exact Hm|].
  rewrite !say_say in *. cbn [app] in *. rewrite Hl. run. normalize.
  eexists. reflexivity.
Qed.

Lemma main_run (file : string) (argv : list string) (w : world) :
  main env file argv w =
  match main_driver env file argv w with
  | (w', Ok p) => (say (success_report p) w', Returned)
  | (w', Raised e) => (say (failure_report e) w', SystemExit 1)
  end.
Proof.
  unfold main, main_driver.
  destruct (resolve_paths file argv) as [mp op]. cbn [fst snd]. run.
  destruct (convert_yolo_to_onnx env (str mp) (Some (str op)) 640 true 17 w)
    as [w' [p|e]]; run; by rewrite !say_say.
Qed.

End Phases.

(** ** The model at work *)

(** [Path] drops empty and [.] components and keeps a double leading
    slash; [str] of the empty path is a dot. *)
Example Path_normalises :
  str (Path "//a/./b//c/") = "//a/b/c"
  ∧ str (Path "") = "."
  ∧ str (Path "///a") = "/a"
  ∧ str (parent (Path "new/dir/x.onnx")) = "new/dir"
  ∧ str (parent (Path "x.onnx")) = "."
  ∧ str (Path "/w" </> "public" </> "models") = "/w/public/models".
Proof. repeat split; reflexivity. Qed.

(** The base name [shutil.move] appends, and the join it makes. *)
Example basename_and_join :
  basename "a/b/" = "b" ∧ basename "m.onnx" = "m.onnx"
  ∧ os_path_join "out" "m.onnx" = "out/m.onnx"
  ∧ os_path_join "out/" "m.onnx" = "out/m.onnx".
Proof. repeat split; reflexivity. Qed.

(** With the default paths the library writes where the output is
    wanted: nothing is moved, the graph is verified, the status is 0. *)
Example default_run :
  let run := main Demo.good_env Demo.demo_file ["convert"] Demo.demo_world in
  run.2 = Returned
  ∧ calls run.1
    = [CallYOLO "/w/public/models/yolov8n-seg-pothole.pt";
       CallExport fixed_export_args; CallImportOnnx;
       CallOnnxLoad "/w/public/models/yolov8n-seg-pothole.onnx"; CallCheckModel]
  ∧ lookup_path ["w"; "public"; "models"; "yolov8n-seg-pothole.onnx"] (fs run.1)
    = Some (File "graph")
  ∧ "✓ ONNX model verification passed!" ∈ stdout run.1.
Proof.
  split; [vm_compute; reflexivity|]. split; [vm_compute; reflexivity|].
  split; [vm_compute; reflexivity|].
  apply list_elem_of_In. vm_compute. repeat first [left; reflexivity | right].
Qed.

(** Without the validator installed the run ends the same way, with the
    two lines of the import warning. *)
Example run_without_validator :
  let run := main Demo.no_onnx_env Demo.demo_file ["convert"; "m.pt"; "out/x.onnx"]
               Demo.demo_world in
  run.2 = Returned
  ∧ calls run.1
    = [CallYOLO "m.pt"; CallExport fixed_export_args;
       CallMkdir (Path "out"); CallMove "m.onnx" "out/x.onnx"; CallImportOnnx]
  ∧ "Warning: onnx package not installed. Skipping verification." ∈ stdout run.1.
Proof.
  split; [vm_compute; reflexivity|]. split; [vm_compute; reflexivity|].
  apply list_elem_of_In. vm_compute. repeat first [left; reflexivity | right].
Qed.

(** ** The error paths *)



(** C6. When the checkpoint exists and the model library cannot load it,
    the driver raises the load-failure error, which wraps the library's
    message; the library was called once and nothing else was called;
    [main] exits with status 1. *)
Theorem unloadable_checkpoint_is_load_failure
    (env : environment) (mp : string) (out : option string) (i : Z) (s : bool) (o : Z)
    (w : world) (e : exn) :
  checkpoint_exists env mp (fs w) = true →
  YOLO env (fs w) mp = Raised e →
  (∃ w', convert_yolo_to_onnx env mp out i s o w = (w', Raised (load_failure e))
         ∧ fs w' = fs w ∧ calls w' = calls w ++ [CallYOLO mp])
  ∧ (∀ file argv,
       main_driver env file argv = convert_yolo_to_onnx env mp out i s o →
       ∃ w', main env file argv w = (w', SystemExit 1)
             ∧ exit_status (SystemExit 1) ≠ 0
             ∧ fs w' = fs w ∧ calls w' = calls w ++ [CallYOLO mp]
             ∧ (nl +:+ "✗ Error: Failed to load YOLO model: " +:+ str_exn e) ∈ stdout w').
Proof.
  intros Hx Hm.
  destruct (driver_load_raised env mp out i s o w e Hx Hm) as (lines & Hrun).
  split.
  - eexists. split; [exact Hrun|]. done.
  - intros file argv Hcall. rewrite main_run, Hcall, Hrun.
    eexists. split; [reflexivity|]. split; [done|]. cbn.
    split; [done|]. split; [done|].
    apply elem_of_app. right. by left.
Qed.

Lemma unloadable_checkpoint_is_load_failure_witness :
  checkpoint_exists Demo.good_env "bad.pt" (fs Demo.demo_world) = true
  ∧ YOLO Demo.good_env (fs Demo.demo_world) "bad.pt"
    = Raised (Exn (OtherException "UnpicklingError") "invalid load key")
  ∧ ∃ w', main Demo.good_env Demo.demo_file ["convert"; "bad.pt"] Demo.demo_world
          = (w', SystemExit 1)
          ∧ fs w' = fs Demo.demo_world ∧ calls w' = [CallYOLO "bad.pt"].
Proof.
  split; [reflexivity|]. split; [reflexivity|].
  destruct (unloadable_checkpoint_is_load_failure Demo.good_env "bad.pt"
              (Some "/w/public/models/yolov8n-seg-pothole.onnx") 640 true 17
              Demo.demo_world _ eq_refl eq_refl) as [_ Hmain].
  destruct (Hmain Demo.demo_file ["convert"; "bad.pt"] eq_refl)
    as (w' & Hrun & _ & Hfs & Hcalls & _).
  exists w'. split; [exact Hrun|]. split; [exact Hfs | exact Hcalls].
Defined.

(** C4. When the export call raises, the driver raises the export-failure
    error, which wraps the library's message; the export was called once,
    after the one load, and nothing was called after it; [main] exits with
    status 1. *)
Theorem failed_export_is_export_failure
    (env : environment) (mp : string) (out : option string) (i : Z) (s : bool) (o : Z)
    (w : world) (m : yolo_model) (r : node) (e : exn) :
  checkpoint_exists env mp (fs w) = true →
  YOLO env (fs w) mp = Ok m →
  export env m (driver_args i s o) (fs w) = (r, Raised e) →
  (∃ w', convert_yolo_to_onnx env mp out i s o w = (w', Raised (export_failure e))
         ∧ calls w' = calls w ++ [CallYOLO mp; CallExport (driver_args i s o)])
  ∧ (∀ file argv,
       main_driver env file argv = convert_yolo_to_onnx env mp out i s o →
       ∃ w', main env file argv w = (w', SystemExit 1)
             ∧ exit_status (SystemExit 1) ≠ 0
             ∧ calls w' = calls w ++ [CallYOLO mp; CallExport (driver_args i s o)]
             ∧ (nl +:+ "✗ Error: Failed to export model to ONNX: " +:+ str_exn e)
               ∈ stdout w').
Proof.
  intros Hx Hm He.
  destruct (driver_found env mp out i s o w m Hx Hm) as (lines & Hrun).
  pose proof (export_model_run env m out i s o
                (evolve (fs w) lines [CallYOLO mp] w) r (Raised e) He) as Hexp.
  cbv beta iota in Hexp. rewrite Hexp, evolve_evolve in Hrun.
  split.
  - eexists. split; [exact Hrun|]. done.
  - intros file argv Hcall. rewrite main_run, Hcall, Hrun.
    eexists. split; [reflexivity|]. split; [done|]. cbn.
    split; [done|].
    apply elem_of_app. right. by left.
Qed.

Lemma failed_export_is_export_failure_witness :
  checkpoint_exists Demo.partial_env "m.pt" (fs Demo.demo_world) = true
  ∧ YOLO Demo.partial_env (fs Demo.demo_world) "m.pt" = Ok (Demo.demo_model "m.pt")
  ∧ (export Demo.partial_env (Demo.demo_model "m.pt") (driver_args 640 true 17)
       (fs Demo.demo_world)).2 = Raised (Exn RuntimeError "could not finish the graph")
  ∧ ∃ w', main Demo.partial_env Demo.demo_file ["convert"; "m.pt"] Demo.demo_world
          = (w', SystemExit 1)
          ∧ calls w' = [CallYOLO "m.pt"; CallExport (driver_args 640 true 17)].
Proof.
  split; [reflexivity|]. split; [reflexivity|]. split; [reflexivity|].
  destruct (failed_export_is_export_failure Demo.partial_env "m.pt"
              (Some "/w/public/models/yolov8n-seg-pothole.onnx") 640 true 17
              Demo.demo_world (Demo.demo_model "m.pt")
              (export Demo.partial_env (Demo.demo_model "m.pt")
                 (driver_args 640 true 17) (fs Demo.demo_world)).1
              _ eq_refl eq_refl eq_refl) as [_ Hmain].
  destruct (Hmain Demo.demo_file ["convert"; "m.pt"] eq_refl)
    as (w' & Hrun & _ & Hcalls & _).
  exists w'. split; [exact Hrun | exact Hcalls].
Defined.

(** C2. When the export succeeds, the relocation step (if any) succeeds
    and the validator then fails, whether its import, its load or its
    check raises, the driver prints the warning for that failure right
    after the line reporting the export and returns the artifact path; the
    file tree stays as the relocation left it; [main] reports that path,
    returns and the process exits with status 0. *)
Theorem validator_failure_is_a_warning
    (env : environment) (mp : string) (out : option string) (i : Z) (s : bool) (o : Z)
    (w : world) (m : yolo_model) (r r' : node) (e : string) (p : path_value) (x : exn) :
  checkpoint_exists env mp (fs w) = true →
  YOLO env (fs w) mp = Ok m →
  export env m (driver_args i s o) (fs w) = (r, Ok e) →
  relocate_tree env out e r = (r', Ok p) →
  validator_failure env r' (str_value p) = Some x →
  (∃ w', convert_yolo_to_onnx env mp out i s o w = (w', Ok p)
         ∧ fs w' = r'
         ∧ (success_line p :: warning_lines x) `suffix_of` stdout w')
  ∧ (∀ file argv,
       main_driver env file argv = convert_yolo_to_onnx env mp out i s o →
       ∃ w', main env file argv w = (w', Returned)
             ∧ exit_status Returned = 0
             ∧ fs w' = r'
             ∧ (success_line p :: warning_lines x ++ success_report p)
               `suffix_of` stdout w').
Proof.
  intros Hx Hm He Hr Hv.
  destruct (driver_found env mp out i s o w m Hx Hm) as (lines & Hrun).
  pose proof (export_model_run env m out i s o
                (evolve (fs w) lines [CallYOLO mp] w) r (Ok e) He) as Hexp.
  cbv beta iota zeta in Hexp. rewrite Hr in Hexp. cbn [fst snd] in Hexp.
  destruct Hexp as (ls & vs & Hexp & _ & Hl).
  rewrite (Hl x Hv) in Hexp. rewrite Hexp, evolve_evolve in Hrun.
  split.
  - eexists. split; [exact Hrun|]. split; [done|]. cbn [stdout evolve].
    rewrite (assoc_L (++)). by apply suffix_app_r.
  - intros file argv Hcall. rewrite main_run, Hcall, Hrun.
    eexists. split; [reflexivity|]. split; [done|]. split; [done|].
    cbn [stdout evolve say].
    rewrite (assoc_L (++) (stdout w)), <-(assoc_L (++) _ _ (success_report p)).
    apply suffix_app_r. rewrite <-app_comm_cons. done.
Qed.

Lemma validator_failure_is_a_warning_witness :
  checkpoint_exists Demo.strict_env "m.pt" (fs Demo.demo_world) = true
  ∧ YOLO Demo.strict_env (fs Demo.demo_world) "m.pt" = Ok (Demo.demo_model "m.pt")
  ∧ (export Demo.strict_env (Demo.demo_model "m.pt") (driver_args 640 true 17)
       (fs Demo.demo_world)).2 = Ok "m.onnx"
  ∧ validator_failure Demo.strict_env
      (relocate_tree Demo.strict_env (Some "new/dir/x.onnx") "m.onnx"
         (export Demo.strict_env (Demo.demo_model "m.pt") (driver_args 640 true 17)
            (fs Demo.demo_world)).1).1
      "new/dir/x.onnx"
    = Some (Exn (OtherException "ValidationError") "graph is not valid")
  ∧ ∃ w', main Demo.strict_env Demo.demo_file ["convert"; "m.pt"; "new/dir/x.onnx"]
            Demo.demo_world = (w', Returned)
          ∧ "Warning: ONNX verification failed: graph is not valid" ∈ stdout w'.
Proof.
  split; [reflexivity|]. split; [reflexivity|]. split; [reflexivity|].
  split; [reflexivity|].
  destruct (validator_failure_is_a_warning Demo.strict_env "m.pt"
              (Some "new/dir/x.onnx") 640 true 17 Demo.demo_world
              (Demo.demo_model "m.pt")
              (export Demo.strict_env (Demo.demo_model "m.pt") (driver_args 640 true 17)
                 (fs Demo.demo_world)).1
              (relocate_tree Demo.strict_env (Some "new/dir/x.onnx") "m.onnx"
                 (export Demo.strict_env (Demo.demo_model "m.pt")
                    (driver_args 640 true 17) (fs Demo.demo_world)).1).1
              "m.onnx" (AsPath (Path "new/dir/x.onnx"))
              (Exn (OtherException "ValidationError") "graph is not valid")
              eq_refl eq_refl eq_refl eq_refl eq_refl) as [_ Hmain].
  destruct (Hmain Demo.demo_file ["convert"; "m.pt"; "new/dir/x.onnx"] eq_refl)
    as (w' & Hrun & _ & _ & Hout).
  exists w'. split; [exact Hrun|].
  destruct Hout as [k ->]. apply elem_of_app. right.
  apply elem_of_cons. right. apply elem_of_cons. by left.
Defined.

(** C5, as stated, fails: with the default paths the export library
    writes where the output is requested; when it gives up after writing
    part of the graph, that part stays at the requested output path, where
    there was nothing before, and the tool exits with status 1. *)
Lemma partial_output_is_left_behind :
  let out := str (resolve_paths Demo.demo_file ["convert"]).2 in
  lookup_path (place Demo.partial_env out) (fs Demo.demo_world) = None
  ∧ lookup_path (place Demo.partial_env out)
      (fs (main Demo.partial_env Demo.demo_file ["convert"] Demo.demo_world).1)
    = Some (File "gra")
  ∧ (main Demo.partial_env Demo.demo_file ["convert"] Demo.demo_world).2 = SystemExit 1
  ∧ ¬ no_output_left_on_export_failure Demo.partial_env Demo.demo_file ["convert"]
        Demo.demo_world.
Proof.
  split; [reflexivity|]. split; [vm_compute; reflexivity|].
  split; [vm_compute; reflexivity|].
  intros Hclaim.
  destruct (Hclaim
              (Demo.demo_model "/w/public/models/yolov8n-seg-pothole.pt")
              (export Demo.partial_env
                 (Demo.demo_model "/w/public/models/yolov8n-seg-pothole.pt")
                 fixed_export_args (fs Demo.demo_world)).1
              (Exn RuntimeError "could not finish the graph")
              eq_refl eq_refl eq_refl) as [Hfile _].
  vm_compute in Hfile. discriminate Hfile.
Qed.

(** C5, amended. When the export call raises, the driver makes no call
    after it, so the file tree is left exactly as the failed export call
    left it, and the tool exits with status 1; hence every place that the
    export call left as it was, the requested output path among them, is
    at the end as it was at the start. *)
Theorem failed_export_leaves_the_tree_of_the_export
    (env : environment) (mp : string) (out : option string) (i : Z) (s : bool) (o : Z)
    (w : world) (m : yolo_model) (r : node) (e : exn) :
  checkpoint_exists env mp (fs w) = true →
  YOLO env (fs w) mp = Ok m →
  export env m (driver_args i s o) (fs w) = (r, Raised e) →
  (∃ w', convert_yolo_to_onnx env mp out i s o w = (w', Raised (export_failure e))
         ∧ fs w' = r)
  ∧ (∀ file argv,
       main_driver env file argv = convert_yolo_to_onnx env mp out i s o →
       ∃ w', main env file argv w = (w', SystemExit 1)
             ∧ exit_status (SystemExit 1) ≠ 0
             ∧ fs w' = r
             ∧ ∀ q, lookup_path (place env q) r = lookup_path (place env q) (fs w) →
                    lookup_path (place env q) (fs w')
                    = lookup_path (place env q) (fs w)).
Proof.
  intros Hx Hm He.
  destruct (driver_found env mp out i s o w m Hx Hm) as (lines & Hrun).
  pose proof (export_model_run env m out i s o
                (evolve (fs w) lines [CallYOLO mp] w) r (Raised e) He) as Hexp.
  cbv beta iota in Hexp. rewrite Hexp, evolve_evolve in Hrun.
  split.
  - eexists. split; [exact Hrun|]. done.
  - intros file argv Hcall. rewrite main_run, Hcall, Hrun.
    eexists. split; [reflexivity|]. split; [done|]. split; [done|].
    intros q Hq. exact Hq.
Qed.

Lemma failed_export_leaves_the_tree_of_the_export_witness :
  checkpoint_exists Demo.partial_env "m.pt" (fs Demo.demo_world) = true
  ∧ YOLO Demo.partial_env (fs Demo.demo_world) "m.pt" = Ok (Demo.demo_model "m.pt")
  ∧ (export Demo.partial_env (Demo.demo_model "m.pt") (driver_args 640 true 17)
       (fs Demo.demo_world)).2 = Raised (Exn RuntimeError "could not finish the graph")
  ∧ ∃ w', main Demo.partial_env Demo.demo_file ["convert"; "m.pt"; "out/x.onnx"]
            Demo.demo_world = (w', SystemExit 1)
          ∧ lookup_path (place Demo.partial_env "out/x.onnx") (fs w') = None.
Proof.
  split; [reflexivity|]. split; [reflexivity|]. split; [reflexivity|].
  destruct (failed_export_leaves_the_tree_of_the_export Demo.partial_env "m.pt"
              (Some "out/x.onnx") 640 true 17
              Demo.demo_world (Demo.demo_model "m.pt")
              (export Demo.partial_env (Demo.demo_model "m.pt")
                 (driver_args 640 true 17) (fs Demo.demo_world)).1
              _ eq_refl eq_refl eq_refl) as [_ Hmain].
  destruct (Hmain Demo.demo_file ["convert"; "m.pt"; "out/x.onnx"] eq_refl)
    as (w' & Hrun & _ & _ & Hsame).
  exists w'. split; [exact Hrun|].
  rewrite (Hsame "out/x.onnx" eq_refl). reflexivity.
Defined.

(** ** The export configuration *)

Lemma relocation_calls_no_export (env : environment) (out : option string)
    (e : string) (r : node) (a : export_args) :
  CallExport a ∉ relocation_calls env out e r.
Proof.
  unfold relocation_calls. destruct out as [o|]; [|by apply not_elem_of_nil].
  destruct (needs_move (Some o) e); [|by apply not_elem_of_nil].
  destruct (path_mkdir (cwd env) (parent (Path o)) r);
    intros Hin; repeat (apply elem_of_cons in Hin as [Hin|Hin]; [done|]);
    by apply elem_of_nil in Hin.
Qed.

Lemma verify_calls_no_export (vs : list call) (a : export_args) :
  forallb is_verify_call vs = true → CallExport a ∉ vs.
Proof.
  intros Hvs Hin. apply list_elem_of_In in Hin.
  rewrite forallb_forall in Hvs. by apply Hvs in Hin.
Qed.

(** The calls of one run of the driver: whatever happens, an export call
    in them carries the driver's arguments; and when the checkpoint exists
    and loads, there is one. *)
Lemma driver_calls (env : environment) (mp : string) (out : option string)
    (i : Z) (s : bool) (o : Z) (w : world) :
  ∃ cs, calls (convert_yolo_to_onnx env mp out i s o w).1 = calls w ++ cs
        ∧ (∀ a, CallExport a ∈ cs → a = driver_args i s o)
        ∧ (∀ m, checkpoint_exists env mp (fs w) = true → YOLO env (fs w) mp = Ok m →
                CallExport (driver_args i s o) ∈ cs).
Proof.
  destruct (checkpoint_exists env mp (fs w)) eqn:Hx.
  2:{ destruct (driver_missing env mp out i s o w Hx) as (lines & ->).
      exists []. split; [done|]. split; [|done].
      intros a Hin. by apply elem_of_nil in Hin. }
  destruct (YOLO env (fs w) mp) as [m|e] eqn:Hm.
  2:{ destruct (driver_load_raised env mp out i s o w e Hx Hm) as (lines & ->).
      exists [CallYOLO mp]. split; [done|]. split; [|done].
      intros a Hin. apply list_elem_of_singleton in Hin. done. }
  destruct (driver_found env mp out i s o w m Hx Hm) as (lines & ->).
  destruct (export env m (driver_args i s o) (fs w)) as [r res] eqn:He.
  pose proof (export_model_run env m out i s o
                (evolve (fs w) lines [CallYOLO mp] w) r res He) as Hexp.
  destruct res as [e|x]; cbv beta iota zeta in Hexp.
  - destruct (relocate_tree env out e r) as [r' [p|x]]; cbn [fst snd] in Hexp.
    + destruct Hexp as (ls & vs & -> & Hvs & _). rewrite evolve_evolve.
      eexists. split; [reflexivity|]. split.
      * intros a Hin. apply elem_of_cons in Hin as [Hin|Hin]; [done|].
        apply elem_of_cons in Hin as [[= ->]|Hin]; [done|].
        apply elem_of_app in Hin as [Hin|Hin].
        -- by apply relocation_calls_no_export in Hin.
        -- by apply verify_calls_no_export in Hin.
      * intros _ _ _. apply elem_of_cons. right. by left.
    + rewrite Hexp, evolve_evolve.
      eexists. split; [reflexivity|]. split.
      * intros a Hin. apply elem_of_cons in Hin as [Hin|Hin]; [done|].
        apply elem_of_cons in Hin as [[= ->]|Hin]; [done|].
        by apply relocation_calls_no_export in Hin.
      * intros _ _ _. apply elem_of_cons. right. by left.
  - rewrite Hexp, evolve_evolve.
    eexists. split; [reflexivity|]. split.
    + intros a Hin. apply elem_of_cons in Hin as [Hin|Hin]; [done|].
      apply list_elem_of_singleton in Hin. by injection Hin as ->.
    + intros _ _ _. apply elem_of_cons. right. by left.
Qed.

(** C9. Whatever the command line, the file tree and the libraries are,
    every export call a run of [main] makes carries image size 640,
    simplification on and opset 17, which [main] supplies, and NMS on and
    dynamic shapes off, which the driver supplies for every caller; and a
    run whose checkpoint exists and loads does make that call. *)
Theorem export_configuration_is_fixed
    (env : environment) (file : string) (argv : list string) (w : world) :
  (∃ cs, calls (main env file argv w).1 = calls w ++ cs
         ∧ (∀ a, CallExport a ∈ cs → a = fixed_export_args)
         ∧ (∀ m, checkpoint_exists env (str (resolve_paths file argv).1) (fs w) = true →
                 YOLO env (fs w) (str (resolve_paths file argv).1) = Ok m →
                 CallExport fixed_export_args ∈ cs))
  ∧ (∀ mp out i s o,
       ∃ cs, calls (convert_yolo_to_onnx env mp out i s o w).1 = calls w ++ cs
             ∧ ∀ a, CallExport a ∈ cs →
                    nms a = true ∧ dynamic a = false ∧ format a = "onnx"
                    ∧ imgsz a = i ∧ simplify a = s ∧ opset a = o).
Proof.
  split.
  - destruct (driver_calls env (str (resolve_paths file argv).1)
                (Some (str (resolve_paths file argv).2)) 640 true 17 w)
      as (cs & Hcs & Hall & Hsome).
    exists cs. rewrite main_run. fold (main_driver env file argv) in Hcs.
    destruct (main_driver env file argv w) as [w' [p|e]]; cbn [fst snd] in *.
    + split; [exact Hcs|]. split; [exact Hall | exact Hsome].
    + split; [exact Hcs|]. split; [exact Hall | exact Hsome].
  - intros mp out i s o.
    destruct (driver_calls env mp out i s o w) as (cs & Hcs & Hall & _).
    exists cs. split; [exact Hcs|]. intros a Hin. by rewrite (Hall a Hin).
Qed.

(** ** The entry point *)

(** C7. Without arguments [main] takes both paths from the defaults,
    which lie under [public/models] in the directory two levels above the
    script file; a first argument replaces the input path and a second the
    output path; the driver is called with these two paths; the process
    exits with status 0 when the driver returns and with status 1 when it
    raises (and also when the model library cannot be imported). *)
Theorem entry_point_paths_and_status
    (env : environment) (file : string) (w : world) :
  resolve_paths file [] = (default_model_path file, default_output_path file)
  ∧ (∀ prog, resolve_paths file [prog]
             = (default_model_path file, default_output_path file))
  ∧ (∀ prog a, resolve_paths file [prog; a] = (Path a, default_output_path file))
  ∧ (∀ prog a b rest, resolve_paths file (prog :: a :: b :: rest) = (Path a, Path b))
  ∧ root (default_model_path file) = root (Path file)
  ∧ parts (default_model_path file)
    = removelast (removelast (parts (Path file)))
      ++ ["public"; "models"; "yolov8n-seg-pothole.pt"]
  ∧ root (default_output_path file) = root (Path file)
  ∧ parts (default_output_path file)
    = removelast (removelast (parts (Path file)))
      ++ ["public"; "models"; "yolov8n-seg-pothole.onnx"]
  ∧ (∀ argv,
       main_driver env file argv
       = convert_yolo_to_onnx env (str (resolve_paths file argv).1)
           (Some (str (resolve_paths file argv).2)) 640 true 17
       ∧ match main_driver env file argv w with
         | (w', Ok p) =>
             main env file argv w = (say (success_report p) w', Returned)
             ∧ exit_status Returned = 0
         | (w', Raised e) =>
             main env file argv w = (say (failure_report e) w', SystemExit 1)
             ∧ exit_status (SystemExit 1) = 1
         end
       ∧ match import_ultralytics env with
         | None => script env file argv w = main env file argv w
         | Some e => exit_status (script env file argv w).2 = 1
         end).
Proof.
  split; [reflexivity|]. split; [reflexivity|]. split; [reflexivity|].
  split; [reflexivity|].
  split; [reflexivity|]. split.
  { unfold default_model_path, joinpath. cbn. by rewrite <-!(assoc_L (++)). }
  split; [reflexivity|]. split.
  { unfold default_output_path, joinpath. cbn. by rewrite <-!(assoc_L (++)). }
  intros argv. split; [reflexivity|]. split.
  - rewrite main_run. by destruct (main_driver env file argv w) as [w' [p|e]].
  - unfold script. destruct (import_ultralytics env) as [e|]; [|done].
    by destruct (is_ImportError e).
Qed.

(** ** Paths: what [str] prints, [Path] reads back *)

Lemma split_slash_cons (c : ascii) (s : string) :
  split_slash (String c s) =
  if is_slash c then EmptyString :: split_slash s
  else match split_slash s with
       | h :: t => String c h :: t
       | [] => [String c EmptyString]
       end.
Proof. reflexivity. Qed.

Lemma no_slash_inv (c : ascii) (s : string) :
  no_slash (String c s) → is_slash c = false ∧ no_slash s.
Proof.
  unfold no_slash. rewrite split_slash_cons.
  destruct (is_slash c); [intros [=]|].
  destruct (split_slash s) as [|h t] eqn:Hs.
  - intros [= <-]. done.
  - intros [= -> ->]. done.
Qed.

Lemma split_slash_no_slash (s : string) : Forall no_slash (split_slash s).
Proof.
  induction s as [|c s IH]; [by repeat constructor|].
  rewrite split_slash_cons. destruct (is_slash c) eqn:Hc.
  - constructor; [done | exact IH].
  - destruct (split_slash s) as [|h t].
    + constructor; [|constructor].
      unfold no_slash. by rewrite split_slash_cons, Hc.
    + inversion IH as [|? ? Hh Ht]; subst. constructor; [|exact Ht].
      unfold no_slash in *. by rewrite split_slash_cons, Hc, Hh.
Qed.

(** Splitting undoes joining when the pieces have no slash. *)
Lemma split_slash_app (x rest : string) :
  no_slash x → split_slash (x +:+ "/" +:+ rest) = x :: split_slash rest.
Proof.
  induction x as [|c x IH]; intros Hx; [reflexivity|].
  apply no_slash_inv in Hx as [Hc Hx].
  change (split_slash (String c (x +:+ "/" +:+ rest)) = String c x :: split_slash rest).
  by rewrite split_slash_cons, Hc, (IH Hx).
Qed.

Lemma split_slash_join (ps : list string) :
  ps ≠ [] → Forall no_slash ps → split_slash (str_join "/" ps) = ps.
Proof.
  induction ps as [|x ps IH]; [done|]. intros _ Hall.
  inversion Hall as [|? ? Hx Hps]; subst.
  destruct ps as [|y ps]; [exact Hx|].
  cbn [str_join]. rewrite split_slash_app by exact Hx.
  f_equal. by apply IH.
Qed.

Lemma filter_is_name (ps : list string) :
  Forall (λ c, is_name c = true ∧ no_slash c) ps → filter is_name ps = ps.
Proof.
  induction 1 as [|x ps [Hx _] _ IH]; [done|].
  rewrite filter_cons, Hx. cbn. by rewrite IH.
Qed.

Lemma wf_path_Path (s : string) : wf_path (Path s).
Proof.
  split.
  - cbn. unfold root_of.
    destruct s as [|c1 [|c2 [|c3 s]]]; [by left|..];
      repeat match goal with |- context [is_slash ?c] => destruct (is_slash c) end;
      auto.
  - cbn. pose proof (split_slash_no_slash s) as Hall.
    induction Hall as [|x l Hx _ IH]; [constructor|].
    rewrite filter_cons. destruct (is_name x) eqn:Hn; cbn; rewrite ?Hn; cbn;
      [constructor; [done | exact IH] | exact IH].
Qed.

Lemma name_head (x : string) :
  is_name x = true → no_slash x → ∃ c x', x = String c x' ∧ is_slash c = false.
Proof.
  intros Hn Hx. destruct x as [|c x']; [done|].
  apply no_slash_inv in Hx as [Hc _]. by exists c, x'.
Qed.

Lemma str_join_head (c : ascii) (x : string) (ps : list string) :
  ∃ t, str_join "/" (String c x :: ps) = String c t.
Proof. destruct ps; by eexists. Qed.

Lemma root_of_relative (c : ascii) (s : string) :
  is_slash c = false → root_of (String c s) = "".
Proof. intros Hc. destruct s as [|c2 [|c3 s]]; cbn; by rewrite Hc. Qed.

Lemma root_of_single (c : ascii) (s : string) :
  is_slash c = false → root_of (String "/" (String c s)) = "/".
Proof. intros Hc. destruct s as [|c3 s]; cbn; by rewrite Hc. Qed.

Lemma root_of_double (c : ascii) (s : string) :
  is_slash c = false → root_of (String "/" (String "/" (String c s))) = "//".
Proof. intros Hc. cbn. by rewrite Hc. Qed.

(** [Path(str(p)) == p] for every path object. *)
Lemma Path_str (p : PurePath) : wf_path p → Path (str p) = p.
Proof.
  destruct p as [r ps]. intros [Hr Hall]. cbn in Hr, Hall.
  pose proof (filter_is_name ps Hall) as Hf.
  assert (Forall no_slash ps) as Hns by (eapply Forall_impl; [exact Hall|]; by intros ? [_ ?]).
  destruct ps as [|x ps].
  { destruct Hr as [->|[->| ->]]; reflexivity. }
  inversion Hall as [|? ? [Hn Hx] _]; subst.
  destruct (name_head x Hn Hx) as (c & x' & -> & Hc).
  destruct (str_join_head c x' ps) as (t & Ht).
  pose proof (split_slash_join (String c x' :: ps) ltac:(done) Hns) as Hsplit.
  unfold Path, str. cbn [root parts].
  destruct Hr as [->|[->| ->]].
  - change ("" +:+ ?s) with s. rewrite Hsplit.
    f_equal; [by rewrite Ht, root_of_relative | exact Hf].
  - change ("/" +:+ ?s) with (String "/" s).
    rewrite split_slash_cons. change (is_slash "/") with true. cbv iota.
    rewrite Hsplit, filter_cons. change (is_name "") with false. cbv iota.
    f_equal; [by rewrite Ht, root_of_single | exact Hf].
  - change ("//" +:+ ?s) with (String "/" (String "/" s)).
    rewrite !split_slash_cons. change (is_slash "/") with true. cbv iota.
    rewrite Hsplit, !filter_cons. change (is_name "") with false. cbv iota.
    f_equal; [by rewrite Ht, root_of_double | exact Hf].
Qed.

Lemma wf_path_parent (p : PurePath) : wf_path p → wf_path (parent p).
Proof.
  intros [Hr Hall]. split; [exact Hr|]. cbn.
  destruct (parts p) as [|x ps] using rev_ind; [done|].
  rewrite removelast_last. by apply Forall_app in Hall as [Hall _].
Qed.

(** The place of a path object, through its string. *)
Lemma locate_str (cwd : loc) (p : PurePath) :
  wf_path p →
  locate cwd (str p) = if truthy (root p) then parts p else cwd ++ parts p.
Proof. intros Hp. unfold locate. by rewrite (Path_str p Hp). Qed.

(** Two spellings, one place: [str(Path(s))] leads where [s] leads. *)
Lemma locate_normal (cwd : loc) (s : string) :
  locate cwd (str (Path s)) = locate cwd s.
Proof. by rewrite locate_str by apply wf_path_Path. Qed.

(** The parent of a path with a final name lies one step up. *)
Lemma locate_parent (cwd : loc) (s : string) :
  parts (Path s) ≠ [] →
  locate cwd (str (parent (Path s))) = removelast (locate cwd s).
Proof.
  intros Hne. rewrite locate_str by apply wf_path_parent, wf_path_Path.
  unfold locate, parent, Path in *. cbn [root parts] in *.
  destruct (truthy (root_of s)); [done|].
  by rewrite removelast_app.
Qed.

(** ** The file tree *)

Lemma lookup_path_app (p k : loc) (n : node) :
  lookup_path (p ++ k) n = lookup_path p n ≫= lookup_path k.
Proof.
  revert n. induction p as [|c p IH]; intros n; [done|].
  cbn [app lookup_path]. destruct n as [|es]; [done|].
  destruct (es !! c) as [child|]; [|done]. cbn. apply IH.
Qed.

Lemma lookup_path_File (k : loc) (c : string) (x : node) :
  lookup_path k (File c) = Some x → k = [] ∧ x = File c.
Proof. destruct k; [by intros [= <-] | done]. Qed.

(** Nothing lies below a regular file. *)
Lemma file_blocks (src q : loc) (n : node) (c : string) :
  lookup_path src n = Some (File c) →
  src `prefix_of` q → is_Some (lookup_path q n) → q = src.
Proof.
  intros Hsrc [k ->] [x Hq]. rewrite lookup_path_app, Hsrc in Hq. cbn in Hq.
  apply lookup_path_File in Hq as [-> _]. by rewrite (right_id_L [] (++)).
Qed.

Lemma is_dir_lookup (p : loc) (n : node) :
  is_dir p n = true ↔ ∃ es, lookup_path p n = Some (Dir es).
Proof.
  unfold is_dir. destruct (lookup_path p n) as [[|es]|]; split;
    try done; try (by intros [? [=]]). by exists es.
Qed.

Lemma put_cons (c : string) (p : loc) (x n : node) :
  put (c :: p) x n =
  match n with
  | File _ => None
  | Dir es =>
      match p with
      | [] => Some (Dir (<[c:=x]> es))
      | _ :: _ =>
          match es !! c ≫= put p x with
          | Some child => Some (Dir (<[c:=child]> es))
          | None => None
          end
      end
  end.
Proof. reflexivity. Qed.

Lemma remove_cons (c : string) (p : loc) (n : node) :
  remove (c :: p) n =
  match n with
  | File _ => n
  | Dir es =>
      match p with
      | [] => Dir (delete c es)
      | _ :: _ =>
          match es !! c with
          | Some child => Dir (<[c:=remove p child]> es)
          | None => n
          end
      end
  end.
Proof. reflexivity. Qed.

Lemma makedirs_cons (c : string) (p : loc) (es : gmap string node) :
  makedirs (c :: p) (Dir es) =
  match makedirs p (default (Dir ∅) (es !! c)) with
  | inr child => inr (Dir (<[c:=child]> es))
  | inl e => inl e
  end.
Proof. reflexivity. Qed.

Lemma put_lookup (p : loc) (x n n' : node) :
  put p x n = Some n' → lookup_path p n' = Some x.
Proof.
  revert n n'. induction p as [|c p IH]; intros n n'; [by intros [= <-]|].
  rewrite put_cons. destruct n as [|es]; [done|]. destruct p as [|c2 p].
  - intros [= <-]. cbn. by rewrite lookup_insert_eq.
  - destruct (es !! c) as [child|]; [|done]. cbn [mbind option_bind].
    destruct (put (c2 :: p) x child) as [child'|] eqn:Hput; [|done].
    intros [= <-]. cbn [lookup_path]. rewrite lookup_insert_eq. cbn.
    by apply (IH child).
Qed.

Lemma put_is_Some (p : loc) (x n : node) :
  p ≠ [] → is_dir (removelast p) n = true → is_Some (put p x n).
Proof.
  revert n. induction p as [|c p IH]; intros n Hne Hd; [done|].
  destruct p as [|c2 p].
  - apply is_dir_lookup in Hd as [es [= ->]]. by eexists.
  - apply is_dir_lookup in Hd as [es Hd].
    change (removelast (c :: c2 :: p)) with (c :: removelast (c2 :: p)) in Hd.
    cbn [lookup_path] in Hd. destruct n as [|es0]; [done|].
    rewrite put_cons. destruct (es0 !! c) as [child|]; [|done].
    cbn [mbind option_bind] in Hd |- *.
    destruct (IH child) as [child' ->]; [done | | by eexists].
    apply is_dir_lookup. by exists es.
Qed.

Lemma put_parent_is_dir (p : loc) (x n n' : node) :
  p ≠ [] → put p x n = Some n' → is_dir (removelast p) n' = true.
Proof.
  revert n n'. induction p as [|c p IH]; intros n n' Hne; [done|].
  rewrite put_cons. destruct n as [|es]; [done|]. destruct p as [|c2 p].
  - by intros [= <-].
  - destruct (es !! c) as [child|]; [|done]. cbn [mbind option_bind].
    destruct (put (c2 :: p) x child) as [child'|] eqn:Hput; [|done].
    intros [= <-].
    change (removelast (c :: c2 :: p)) with (c :: removelast (c2 :: p)).
    unfold is_dir. cbn [lookup_path]. rewrite lookup_insert_eq. cbn.
    by apply (IH child).
Qed.

Lemma remove_is_dir (src q : loc) (n : node) :
  is_dir q n = true → ¬ src `prefix_of` q → is_dir q (remove src n) = true.
Proof.
  revert q n. induction src as [|c src IH]; intros q n Hd Hp.
  { destruct Hp. apply prefix_nil. }
  rewrite remove_cons. destruct n as [|es]; [done|].
  destruct q as [|d q].
  { destruct src; [done|]. by destruct (es !! c). }
  unfold is_dir in Hd |- *. cbn [lookup_path] in Hd.
  destruct src as [|c2 src].
  - cbn [lookup_path]. destruct (decide (c = d)) as [->|Hcd].
    + destruct Hp. by apply prefix_cons, prefix_nil.
    + by rewrite lookup_delete_ne.
  - destruct (es !! c) as [child|] eqn:Hc; [|done]. cbn [lookup_path].
    destruct (decide (c = d)) as [->|Hcd].
    + rewrite lookup_insert_eq. rewrite Hc in Hd. cbn in Hd |- *.
      apply (IH q child Hd). intros Hpre. apply Hp. by apply prefix_cons.
    + by rewrite lookup_insert_ne.
Qed.

Lemma makedirs_is_dir (q : loc) (n n' : node) :
  makedirs q n = inr n' → is_dir q n' = true.
Proof.
  revert n n'. induction q as [|c q IH]; intros n n'.
  - destruct n; [done|]. by intros [= <-].
  - destruct n as [|es]; [done|]. rewrite makedirs_cons.
    destruct (makedirs q (default (Dir ∅) (es !! c))) as [?|child] eqn:Hm; [done|].
    intros [= <-]. unfold is_dir. cbn [lookup_path]. rewrite lookup_insert_eq. cbn.
    by apply (IH _ _ Hm).
Qed.

Lemma makedirs_keeps_files (q p : loc) (n n' : node) (c : string) :
  makedirs q n = inr n' →
  lookup_path p n = Some (File c) → lookup_path p n' = Some (File c).
Proof.
  revert p n n'. induction q as [|d q IH]; intros p n n'.
  - destruct n; [done|]. by intros [= <-].
  - destruct n as [|es]; [done|]. rewrite makedirs_cons.
    destruct (makedirs q (default (Dir ∅) (es !! d))) as [?|child] eqn:Hm; [done|].
    intros [= <-]. destruct p as [|a p]; [done|]. cbn [lookup_path].
    destruct (decide (d = a)) as [->|Hda].
    + rewrite lookup_insert_eq. destruct (es !! a) as [ch|]; [|done]. cbn.
      by apply IH.
    + by rewrite lookup_insert_ne.
Qed.

(** Creating directories that exist changes nothing. *)
Lemma makedirs_existing (q : loc) (n : node) :
  is_dir q n = true → makedirs q n = inr n.
Proof.
  revert n. induction q as [|c q IH]; intros n Hd.
  - apply is_dir_lookup in Hd as [es [= ->]]. done.
  - unfold is_dir in Hd. cbn [lookup_path] in Hd. destruct n as [|es]; [done|].
    rewrite makedirs_cons. destruct (es !! c) as [child|] eqn:Hc; [|done]. cbn in Hd |- *.
    rewrite (IH child) by exact Hd. by rewrite insert_id.
Qed.

(** What exists sits in a directory. *)
Lemma parent_is_dir (p : loc) (n x : node) :
  p ≠ [] → lookup_path p n = Some x → is_dir (removelast p) n = true.
Proof.
  intros Hne Hp. destruct p as [|c p] using rev_ind; [done|].
  rewrite removelast_last. rewrite lookup_path_app in Hp.
  unfold is_dir. destruct (lookup_path p n) as [[|es]|]; done.
Qed.

(** ** Moving the exported file *)

Lemma str_truthy (p : PurePath) : wf_path p → truthy (str p) = true.
Proof.
  destruct p as [r ps]. intros [Hr Hall]. cbn in Hr, Hall. unfold str. cbn [root parts].
  destruct ps as [|x ps].
  - by destruct Hr as [->|[->| ->]].
  - inversion Hall as [|? ? [Hn Hx] _]; subst.
    destruct (name_head x Hn Hx) as (c & x' & -> & _).
    destruct (str_join_head c x' ps) as (t & ->).
    by destruct Hr as [->|[->| ->]].
Qed.

Lemma prefix_removelast (src dst : loc) :
  src `prefix_of` dst → src ≠ dst → src `prefix_of` removelast dst.
Proof.
  intros [k ->] Hne. destruct k as [|a k].
  - by rewrite (right_id_L [] (++)) in Hne.
  - rewrite removelast_app by done. by apply prefix_app_r.
Qed.

(** A regular file moved onto a name that is free or taken by a regular
    file, in a directory that exists, ends up under that name. *)
Lemma rename_file (src dst : loc) (r : node) (c : string) :
  lookup_path src r = Some (File c) →
  dst ≠ [] →
  is_dir (removelast dst) r = true →
  is_dir dst r = false →
  ∃ r', rename src dst r = inr r'
        ∧ lookup_path dst r' = Some (File c)
        ∧ is_dir (removelast dst) r' = true.
Proof.
  intros Hsrc Hne Hpar Hnd. unfold rename. rewrite Hsrc.
  case_bool_decide as Heq.
  { subst dst. by exists r. }
  assert (¬ src `prefix_of` removelast dst) as Hnp.
  { intros Hpre. apply is_dir_lookup in Hpar as [es Hes].
    assert (removelast dst = src) as Hsame
      by (eapply file_blocks; [exact Hsrc | exact Hpre | by eexists]).
    rewrite Hsame, Hsrc in Hes. done. }
  assert (inside src dst = false) as ->.
  { unfold inside. case_bool_decide as Hpre; [|done].
    destruct Hnp. by apply prefix_removelast. }
  destruct (put_is_Some dst (File c) (remove src r) Hne) as [r' Hput].
  { by apply remove_is_dir. }
  rewrite Hput.
  assert (lookup_path dst r' = Some (File c) ∧ is_dir (removelast dst) r' = true)
    as Hgoal.
  { split; [by eapply put_lookup | by eapply put_parent_is_dir]. }
  unfold is_dir in Hnd, Hpar.
  destruct (lookup_path dst r) as [[c0|es0]|]; [by exists r' | done |].
  destruct (lookup_path (removelast dst) r) as [[|es]|]; [done | by exists r' | done].
Qed.

Lemma move_places_file (cwd : loc) (e o : string) (r r1 : node) (c : string) :
  truthy e = true →
  lookup_path (locate cwd e) r = Some (File c) →
  path_mkdir cwd (parent (Path o)) r = Ok r1 →
  is_dir (locate cwd o) r1 = false →
  ∃ r2, shutil_move cwd e (str (Path o)) r1 = Ok r2
        ∧ lookup_path (locate cwd o) r2 = Some (File c)
        ∧ is_dir (locate cwd (str (parent (Path o)))) r2 = true.
Proof.
  intros He Hsrc Hmk Hnd. unfold path_mkdir in Hmk.
  destruct (makedirs (locate cwd (str (parent (Path o)))) r) as [?|r1'] eqn:Hmake;
    [done|]. injection Hmk as ->.
  pose proof (makedirs_is_dir _ _ _ Hmake) as Hpar.
  pose proof (makedirs_keeps_files _ _ _ _ _ Hmake Hsrc) as Hsrc1.
  assert (parts (Path o) ≠ []) as Hparts.
  { intros Hnil.
    assert (parent (Path o) = Path o) as Hsame.
    { unfold parent. rewrite Hnil. destruct (Path o) as [rt ps]. cbn in *. by subst. }
    rewrite Hsame, locate_normal in Hpar. by rewrite Hpar in Hnd. }
  rewrite locate_parent in Hpar |- * by exact Hparts.
  assert (locate cwd o ≠ []) as Hne.
  { unfold locate. destruct (truthy (root (Path o))); [done|].
    intros Happ. apply app_eq_nil in Happ as [_ ?]. done. }
  destruct (rename_file _ _ _ _ Hsrc1 Hne Hpar Hnd) as (r2 & Hren & Hdst & Hpar2).
  exists r2. split; [|done].
  unfold shutil_move, os_path_isdir. rewrite locate_normal, Hnd.
  rewrite andb_false_r. unfold os_rename.
  rewrite He, (str_truthy (Path o)) by apply wf_path_Path. cbn [negb orb].
  by rewrite locate_normal, Hren.
Qed.

Lemma relocate_tree_stay (env : environment) (out : option string) (e : string)
    (r : node) :
  needs_move out e = false → relocate_tree env out e r = (r, Ok (AsStr e)).
Proof. intros Hn. unfold relocate_tree. by rewrite relocate_stay. Qed.

Lemma relocate_tree_move (env : environment) (o e : string) (r : node) :
  needs_move (Some o) e = true →
  relocate_tree env (Some o) e r =
  match path_mkdir (cwd env) (parent (Path o)) r with
  | Raised x => (r, Raised x)
  | Ok r1 =>
      match shutil_move (cwd env) e (str (Path o)) r1 with
      | Raised x => (r1, Raised x)
      | Ok r2 => (r2, Ok (AsPath (Path o)))
      end
  end.
Proof.
  intros Hn. unfold relocate_tree. rewrite relocate_move by exact Hn. cbn [fs].
  destruct (path_mkdir (cwd env) (parent (Path o)) r) as [r1|x]; [|done].
  by destruct (shutil_move (cwd env) e (str (Path o)) r1).
Qed.

(** The driver, from a world where the checkpoint loads and the export
    succeeds, up to the relocation: it raises when the relocation does,
    and otherwise returns the relocation's path and leaves its tree. *)
Lemma driver_after_export (env : environment) (mp : string) (out : option string)
    (i : Z) (s : bool) (op : Z) (w : world) (m : yolo_model) (r : node) (e : string) :
  checkpoint_exists env mp (fs w) = true →
  YOLO env (fs w) mp = Ok m →
  export env m (driver_args i s op) (fs w) = (r, Ok e) →
  ∃ lines vs,
    convert_yolo_to_onnx env mp out i s op w =
    (evolve (relocate_tree env out e r).1 lines
       (CallYOLO mp :: CallExport (driver_args i s op)
        :: relocation_calls env out e r ++ vs) w,
     match (relocate_tree env out e r).2 with
     | Ok p => Ok p
     | Raised x => Raised (export_failure x)
     end)
    ∧ forallb is_verify_call vs = true.
Proof.
  intros Hx Hm He.
  destruct (driver_found env mp out i s op w m Hx Hm) as (lines & ->).
  pose proof (export_model_run env m out i s op
                (evolve (fs w) lines [CallYOLO mp] w) r (Ok e) He) as Hexp.
  cbv beta iota zeta in Hexp.
  destruct (relocate_tree env out e r) as [r' [p|x]]; cbn [fst snd] in *.
  - destruct Hexp as (ls & vs & -> & Hvs & _). rewrite evolve_evolve.
    by exists (lines ++ success_line p :: ls), vs.
  - rewrite Hexp, evolve_evolve. exists (lines ++ []), [].
    by rewrite (right_id_L [] (++) (relocation_calls env out e r)).
Qed.


(** The relocation step on the move path, when the directories can be
    created and a regular file meets a name that is not a directory. *)
Lemma relocate_tree_moves_file (env : environment) (o e : string) (r r1 : node)
    (c : string) :
  needs_move (Some o) e = true →
  e ≠ "" →
  lookup_path (place env e) r = Some (File c) →
  path_mkdir (cwd env) (parent (Path o)) r = Ok r1 →
  is_dir (place env o) r1 = false →
  ∃ r2, relocate_tree env (Some o) e r = (r2, Ok (AsPath (Path o)))
        ∧ relocation_calls env (Some o) e r
          = [CallMkdir (parent (Path o)); CallMove e (str (Path o))]
        ∧ lookup_path (place env o) r2 = Some (File c)
        ∧ is_dir (place env (str (parent (Path o)))) r2 = true.
Proof.
  intros Hn Hne Hsrc Hmk Hnd.
  assert (truthy e = true) as Hte by (by destruct e).
  destruct (move_places_file (cwd env) e o r r1 c Hte Hsrc Hmk Hnd)
    as (r2 & Hmove & Hdst & Hpar).
  exists r2. rewrite (relocate_tree_move env o e r Hn), Hmk, Hmove.
  unfold relocation_calls. by rewrite Hn, Hmk.
Qed.



(** ** Running the tool again *)

(** C8, as stated, fails: with an existing directory as output path the
    first run moves the file into the directory and succeeds; the second
    run finds that file in its way, the move is refused, and the tool
    exits with status 1. *)
Lemma second_run_fails_on_directory_output :
  let argv := ["convert"; "m.pt"; "out"] in
  let first := main Demo.good_env Demo.demo_file argv Demo.demo_world in
  let second := main Demo.good_env Demo.demo_file argv first.1 in
  first.2 = Returned
  ∧ second.2 = SystemExit 1
  ∧ (nl +:+ "✗ Error: Failed to export model to ONNX: "
        +:+ "Destination path 'out/m.onnx' already exists") ∈ stdout second.1
  ∧ ¬ second_run_succeeds Demo.good_env Demo.demo_file argv Demo.demo_world.
Proof.
  split; [vm_compute; reflexivity|]. split; [vm_compute; reflexivity|]. split.
  { apply list_elem_of_In. vm_compute.
    repeat first [left; reflexivity | right]. }
  intros Hclaim. destruct Hclaim as [Hsecond _]; [vm_compute; reflexivity|].
  vm_compute in Hsecond. discriminate Hsecond.
Qed.

Lemma file_has_a_name (cwd : loc) (o : string) (r : node) (c : string) :
  is_dir cwd r = true →
  lookup_path (locate cwd o) r = Some (File c) → parts (Path o) ≠ [].
Proof.
  intros Hd Hf Hnil. unfold locate in Hf. rewrite Hnil in Hf.
  apply is_dir_lookup in Hd as [es Hd].
  destruct (truthy (root (Path o))).
  - injection Hf as ->. by destruct cwd.
  - rewrite (right_id_L [] (++)) in Hf. by rewrite Hf in Hd.
Qed.

(** C8, amended. A run that finds a regular file at the explicit output
    path when it comes to relocate, as the artifact of an earlier run with
    the same output path is, does not fail for it: if the export succeeds
    and its returned path names a regular file, the driver returns a path
    that leads to the requested place, and the file there has the content
    the export just wrote, the earlier content being replaced. *)
Theorem rerun_replaces_prior_file
    (env : environment) (mp o : string) (i : Z) (s : bool) (op : Z) (w : world)
    (m : yolo_model) (r : node) (e c_old c_new : string) :
  checkpoint_exists env mp (fs w) = true →
  YOLO env (fs w) mp = Ok m →
  export env m (driver_args i s op) (fs w) = (r, Ok e) →
  is_dir (cwd env) r = true →
  o ≠ "" →
  lookup_path (place env o) r = Some (File c_old) →
  e ≠ "" →
  lookup_path (place env e) r = Some (File c_new) →
  ∃ w' p, convert_yolo_to_onnx env mp (Some o) i s op w = (w', Ok p)
          ∧ place env (str_value p) = place env o
          ∧ lookup_path (place env o) (fs w') = Some (File c_new).
Proof.
  intros Hx Hm He Hcwd Ho Hold Hne Hnew.
  destruct (needs_move (Some o) e) eqn:Hn.
  - pose proof (file_has_a_name _ _ _ _ Hcwd Hold) as Hparts.
    assert (path_mkdir (cwd env) (parent (Path o)) r = Ok r) as Hmk.
    { unfold path_mkdir. rewrite locate_parent by exact Hparts.
      rewrite makedirs_existing; [done|].
      eapply parent_is_dir; [|exact Hold].
      unfold place, locate. destruct (truthy (root (Path o))); [done|].
      intros Happ. apply app_eq_nil in Happ as [_ ?]. done. }
    assert (is_dir (place env o) r = false) as Hnd.
    { unfold is_dir. by rewrite Hold. }
    destruct (relocate_tree_moves_file env o e r r c_new Hn Hne Hnew Hmk Hnd)
      as (r2 & Htree & _ & Hfile & _).
    destruct (driver_after_export env mp (Some o) i s op w m r e Hx Hm He)
      as (lines & vs & Hrun & _).
    rewrite Htree in Hrun. cbn [fst snd] in Hrun.
    eexists _, (AsPath (Path o)). split; [exact Hrun|].
    split; [apply locate_normal | exact Hfile].
  - assert (e = o) as ->.
    { unfold needs_move in Hn. destruct o; [done|]. cbn [truthy andb] in Hn.
      apply negb_false_iff, String.eqb_eq in Hn. done. }
    destruct (driver_after_export env mp (Some o) i s op w m r o Hx Hm He)
      as (lines & vs & Hrun & _).
    rewrite (relocate_tree_stay env (Some o) o r Hn) in Hrun. cbn [fst snd] in Hrun.
    eexists _, (AsStr o). split; [exact Hrun|]. split; [done|]. exact Hnew.
Qed.

Lemma rerun_replaces_prior_file_witness :
  lookup_path ["w"; "out"; "x.onnx"] (fs Demo.after_first_run) = Some (File "graph")
  ∧ checkpoint_exists Demo.good_env "m.pt" (fs Demo.after_first_run) = true
  ∧ YOLO Demo.good_env (fs Demo.after_first_run) "m.pt" = Ok (Demo.demo_model "m.pt")
  ∧ export Demo.good_env (Demo.demo_model "m.pt") (driver_args 640 true 17)
      (fs Demo.after_first_run) = (Demo.second_export, Ok "m.onnx")
  ∧ is_dir (cwd Demo.good_env) Demo.second_export = true
  ∧ lookup_path (place Demo.good_env "out/x.onnx") Demo.second_export
    = Some (File "graph")
  ∧ lookup_path (place Demo.good_env "m.onnx") Demo.second_export = Some (File "graph")
  ∧ ∃ w' p, convert_yolo_to_onnx Demo.good_env "m.pt" (Some "out/x.onnx") 640 true 17
              Demo.after_first_run = (w', Ok p)
            ∧ lookup_path ["w"; "out"; "x.onnx"] (fs w') = Some (File "graph")
            ∧ lookup_path ["w"; "m.onnx"] (fs w') = None.
Proof.
  split; [vm_compute; reflexivity|]. split; [vm_compute; reflexivity|].
  split; [vm_compute; reflexivity|]. split; [vm_compute; reflexivity|].
  split; [vm_compute; reflexivity|]. split; [vm_compute; reflexivity|].
  split; [vm_compute; reflexivity|].
  destruct (rerun_replaces_prior_file Demo.good_env "m.pt" "out/x.onnx"
              640 true 17 Demo.after_first_run (Demo.demo_model "m.pt")
              Demo.second_export "m.onnx" "graph" "graph")
    as (w' & p & Hrun & _ & Hfile);
    [vm_compute; reflexivity | vm_compute; reflexivity | vm_compute; reflexivity
    | vm_compute; reflexivity | discriminate | vm_compute; reflexivity
    | discriminate | vm_compute; reflexivity |].
  exists w', p. split; [exact Hrun|]. split; [exact Hfile|].
  replace w' with
    (convert_yolo_to_onnx Demo.good_env "m.pt" (Some "out/x.onnx") 640 true 17
       Demo.after_first_run).1 by (by rewrite Hrun).
  vm_compute. reflexivity.
Defined.

(** ** What decides the relocation *)

(** C10, as stated, fails in one direction: a non-empty output path whose
    string differs from the returned one does not always get the file
    moved.  When a regular file stands where a parent directory of the
    output path should be, creating the directories raises, the move is
    never called and the exported file stays where the library put it. *)
Lemma differing_strings_without_a_move :
  let run := convert_yolo_to_onnx Demo.good_env "m.pt" (Some "m.pt/x.onnx")
               640 true 17 Demo.demo_world in
  needs_move (Some "m.pt/x.onnx") "m.onnx" = true
  ∧ calls run.1
    = [CallYOLO "m.pt"; CallExport (driver_args 640 true 17);
       CallMkdir (parent (Path "m.pt/x.onnx"))]
  ∧ lookup_path ["w"; "m.onnx"] (fs run.1) = Some (File "graph")
  ∧ run.2 = Raised (export_failure
                      (Exn FileExistsError "[Errno 17] File exists: 'm.pt'"))
  ∧ ¬ moved_iff_strings_differ Demo.good_env "m.pt" (Some "m.pt/x.onnx")
        640 true 17 Demo.demo_world.
Proof.
  split; [reflexivity|]. split; [vm_compute; reflexivity|].
  split; [vm_compute; reflexivity|]. split; [vm_compute; reflexivity|].
  intros Hclaim.
  destruct (Hclaim (Demo.demo_model "m.pt") Demo.after_export "m.onnx"
              eq_refl eq_refl eq_refl) as [_ Hmoved].
  destruct (Hmoved eq_refl) as (src & dst & Hin).
  apply list_elem_of_In in Hin. vm_compute in Hin.
  destruct Hin as [Hin|[Hin|[Hin|[]]]]; discriminate Hin.
Qed.

Lemma relocation_calls_cases (env : environment) (out : option string)
    (e : string) (r : node) :
  (needs_move out e = false ∧ relocation_calls env out e r = [])
  ∨ (∃ o, out = Some o ∧ needs_move out e = true
          ∧ ((∃ x, path_mkdir (cwd env) (parent (Path o)) r = Raised x
                   ∧ relocation_calls env out e r = [CallMkdir (parent (Path o))])
             ∨ (∃ r1, path_mkdir (cwd env) (parent (Path o)) r = Ok r1
                      ∧ relocation_calls env out e r
                        = [CallMkdir (parent (Path o)); CallMove e (str (Path o))]))).
Proof.
  unfold relocation_calls. destruct out as [o|]; [|by left].
  destruct (needs_move (Some o) e) eqn:Hn; [|by left].
  right. exists o. split; [done|]. split; [done|].
  destruct (path_mkdir (cwd env) (parent (Path o)) r) as [r1|x];
    [right | left]; by eexists.
Qed.

Lemma needs_move_spec (out : option string) (e : string) :
  needs_move out e = true ↔ ∃ o, out = Some o ∧ o ≠ "" ∧ e ≠ o.
Proof.
  unfold needs_move. split.
  - destruct out as [o|]; [|done]. intros Hn. exists o. split; [done|].
    apply andb_true_iff in Hn as [Ho Hne]. split; [by destruct o|].
    apply negb_true_iff in Hne. by apply String.eqb_neq.
  - intros (o & -> & Ho & Hne). apply andb_true_iff. split; [by destruct o|].
    apply negb_true_iff. by apply String.eqb_neq.
Qed.

Lemma verify_calls_plain (vs : list call) :
  forallb is_verify_call vs = true →
  (∀ p, CallMkdir p ∉ vs) ∧ (∀ a b, CallMove a b ∉ vs).
Proof.
  intros Hvs. rewrite forallb_forall in Hvs.
  split; intros; intros Hin; apply list_elem_of_In in Hin; by apply Hvs in Hin.
Qed.

(** C10, amended. After a successful export the relocation step is
    entered if and only if an output path is given, is non-empty and its
    string differs from the string the export returned, whatever places
    the two strings lead to: the step starts by creating the parent
    directories, and the move is called, on the returned string and the
    output path, exactly when that creation succeeds.  Two spellings of
    one place differ as strings, so they enter the step.  Otherwise no
    directory is created, nothing is moved, the tree stays as the export
    left it and the returned string is returned unchanged. *)
Theorem relocation_is_decided_by_strings
    (env : environment) (mp : string) (out : option string)
    (i : Z) (s : bool) (op : Z) (w : world) (m : yolo_model) (r : node) (e : string) :
  checkpoint_exists env mp (fs w) = true →
  YOLO env (fs w) mp = Ok m →
  export env m (driver_args i s op) (fs w) = (r, Ok e) →
  (needs_move out e = true ↔ ∃ o, out = Some o ∧ o ≠ "" ∧ e ≠ o)
  ∧ (∃ cs,
       calls (convert_yolo_to_onnx env mp out i s op w).1
       = calls w ++ CallYOLO mp :: CallExport (driver_args i s op) :: cs
       ∧ ((∃ p, CallMkdir p ∈ cs) ↔ needs_move out e = true)
       ∧ ((∃ a b, CallMove a b ∈ cs)
          ↔ needs_move out e = true
            ∧ ∃ o r1, out = Some o
                      ∧ path_mkdir (cwd env) (parent (Path o)) r = Ok r1)
       ∧ (∀ a b, CallMove a b ∈ cs → a = e ∧ ∃ o, out = Some o ∧ b = str (Path o)))
  ∧ (needs_move out e = false →
       (convert_yolo_to_onnx env mp out i s op w).2 = Ok (AsStr e)
       ∧ fs (convert_yolo_to_onnx env mp out i s op w).1 = r)
  ∧ (needs_move (Some "./m.onnx") "m.onnx" = true
     ∧ place env "./m.onnx" = place env "m.onnx").
Proof.
  intros Hx Hm He. split; [apply needs_move_spec|].
  destruct (driver_after_export env mp out i s op w m r e Hx Hm He)
    as (lines & vs & Hrun & Hvs).
  destruct (verify_calls_plain vs Hvs) as [Hnomk Hnomv].
  split; [|split; [|done]].
  - exists (relocation_calls env out e r ++ vs). rewrite Hrun. cbn [fst calls evolve].
    split; [done|].
    destruct (relocation_calls_cases env out e r)
      as [[Hn ->]|(o & -> & Hn & [(x & Hmk & ->)|(r1 & Hmk & ->)])];
      rewrite Hn; cbn [app].
    + split; [|split].
      * split; [intros [p Hin]; by apply Hnomk in Hin | done].
      * split; [intros (a & b & Hin); by apply Hnomv in Hin | by intros [? _]].
      * intros a b Hin. by apply Hnomv in Hin.
    + split; [|split].
      * split; [done|]. intros _. exists (parent (Path o)). apply elem_of_cons. by left.
      * split.
        -- intros (a & b & Hin). apply elem_of_cons in Hin as [Hin|Hin]; [done|].
           by apply Hnomv in Hin.
        -- intros [_ (o' & r1 & [= <-] & Hok)]. by rewrite Hmk in Hok.
      * intros a b Hin. apply elem_of_cons in Hin as [Hin|Hin]; [done|].
        by apply Hnomv in Hin.
    + split; [|split].
      * split; [done|]. intros _. exists (parent (Path o)). apply elem_of_cons. by left.
      * split; [intros _; split; [done|]; by exists o, r1|]. intros _.
        exists e, (str (Path o)). apply elem_of_cons. right. apply elem_of_cons. by left.
      * intros a b Hin. apply elem_of_cons in Hin as [Hin|Hin]; [done|].
        apply elem_of_cons in Hin as [Hin|Hin]; [|by apply Hnomv in Hin].
        injection Hin as -> ->. split; [done|]. by exists o.
  - intros Hn. rewrite Hrun, (relocate_tree_stay env out e r Hn). done.
Qed.

Lemma relocation_is_decided_by_strings_witness :
  checkpoint_exists Demo.good_env "m.pt" (fs Demo.demo_world) = true
  ∧ YOLO Demo.good_env (fs Demo.demo_world) "m.pt" = Ok (Demo.demo_model "m.pt")
  ∧ export Demo.good_env (Demo.demo_model "m.pt") (driver_args 640 true 17)
      (fs Demo.demo_world) = (Demo.after_export, Ok "m.onnx")
  ∧ place Demo.good_env "./m.onnx" = place Demo.good_env "m.onnx"
  ∧ ∃ cs, calls (convert_yolo_to_onnx Demo.good_env "m.pt" (Some "./m.onnx")
                   640 true 17 Demo.demo_world).1
          = CallYOLO "m.pt" :: CallExport (driver_args 640 true 17) :: cs
          ∧ ∃ a b, CallMove a b ∈ cs.
Proof.
  split; [reflexivity|]. split; [reflexivity|]. split; [reflexivity|].
  split; [reflexivity|].
  destruct (relocation_is_decided_by_strings Demo.good_env "m.pt" (Some "./m.onnx")
              640 true 17 Demo.demo_world (Demo.demo_model "m.pt")
              Demo.after_export "m.onnx" eq_refl eq_refl eq_refl)
    as (_ & (cs & Hcalls & _ & Hmove & _) & _).
  exists cs. split; [exact Hcalls|].
  apply Hmove. split; [reflexivity|].
  exists "./m.onnx", Demo.after_export. split; reflexivity.
Defined.

(** * Further properties of the driver and the entry point *)

(** ** A run told without the monad *)

Lemma verify_run_cases (env : environment) (p : path_value) (w : world) :
  verify env p w =
  (evolve (fs w) (verify_lines env (fs w) (str_value p))
     (verify_calls env (fs w) (str_value p)) w, Ok tt).
Proof.
  unfold verify, try_except, verify_lines, verify_calls, warning_lines.
  unfold call_import_onnx, call_onnx_load, call_check_model, reading, raise.
  run.
  destruct (import_onnx env) as [x|].
  { destruct (is_ImportError x); run; by normalize. }
  run. cbn [fs called].
  destruct (onnx_load env (fs w) (str_value p)) as [g|x].
  2:{ destruct (is_ImportError x); run; by normalize. }
  run.
  destruct (check_model env g) as [x|].
  { destruct (is_ImportError x); run; by normalize. }
  run. normalize. unfold verification_report, shape_line. done.
Qed.

Lemma driver_outcome_spec (env : environment) (mp : string) (out : option string)
    (i : Z) (s : bool) (op : Z) (w : world) :
  ∃ lines,
    convert_yolo_to_onnx env mp out i s op w =
    (evolve (driver_outcome env mp out i s op (fs w)).1.1 lines
       (driver_outcome env mp out i s op (fs w)).1.2 w,
     (driver_outcome env mp out i s op (fs w)).2)
    ∧ ∀ p, (driver_outcome env mp out i s op (fs w)).2 = Ok p →
           ∃ pre, lines = pre ++ success_line p
                          :: verify_lines env (driver_outcome env mp out i s op (fs w)).1.1
                               (str_value p).
Proof.
  unfold driver_outcome.
  destruct (checkpoint_exists env mp (fs w)) eqn:Hx.
  2:{ destruct (driver_missing env mp out i s op w Hx) as (lines & ->).
      exists lines. by split. }
  destruct (YOLO env (fs w) mp) as [m|x] eqn:Hm.
  2:{ destruct (driver_load_raised env mp out i s op w x Hx Hm) as (lines & ->).
      exists lines. by split. }
  destruct (driver_found env mp out i s op w m Hx Hm) as (lines & ->).
  unfold export_model, try_except.
  rewrite bind_run. fold (driver_args i s op). rewrite call_export_run. cbn [fs evolve].
  destruct (export env m (driver_args i s op) (fs w)) as [r [e|x]]; cbn [fst snd].
  2:{ exists lines. split; [|done]. unfold raise.
      fold (evolve r [] [CallExport (driver_args i s op)]
              (evolve (fs w) lines [CallYOLO mp] w)).
      by rewrite evolve_evolve, (right_id_L [] (++)). }
  fold (evolve r [] [CallExport (driver_args i s op)]
          (evolve (fs w) lines [CallYOLO mp] w)).
  rewrite evolve_evolve, bind_run, relocate_tree_spec. cbn [fs evolve].
  destruct (relocate_tree env out e r) as [r' [p|x]]; cbn [fst snd].
  - fold (evolve r' [] (relocation_calls env out e r)
            (evolve r (lines ++ []) ([CallYOLO mp] ++ [CallExport (driver_args i s op)]) w)).
    rewrite evolve_evolve. run. rewrite verify_run_cases. normalize.
    eexists. split; [reflexivity|]. intros p' [= <-].
    exists ((lines ++ []) ++ []). by rewrite <-(assoc_L (++)).
  - fold (evolve r' [] (relocation_calls env out e r)
            (evolve r (lines ++ []) ([CallYOLO mp] ++ [CallExport (driver_args i s op)]) w)).
    rewrite evolve_evolve. eexists. split; [reflexivity | done].
Qed.

(** ** What the driver can raise *)



(** ** The order of the calls *)

Lemma relocation_calls_ranks (env : environment) (out : option string)
    (e : string) (r : node) :
  map phase_rank (relocation_calls env out e r) = []
  ∨ map phase_rank (relocation_calls env out e r) = [2%nat]
  ∨ map phase_rank (relocation_calls env out e r) = [2%nat; 3%nat].
Proof.
  destruct (relocation_calls_cases env out e r)
    as [[_ ->]|(o & _ & _ & [(x & _ & ->)|(r1 & _ & ->)])]; auto.
Qed.

Lemma verify_calls_ranks (env : environment) (r : node) (q : string) :
  map phase_rank (verify_calls env r q) = [4%nat]
  ∨ map phase_rank (verify_calls env r q) = [4%nat; 5%nat]
  ∨ map phase_rank (verify_calls env r q) = [4%nat; 5%nat; 6%nat].
Proof.
  unfold verify_calls. destruct (import_onnx env); [by left|].
  destruct (onnx_load env r q); auto.
Qed.

Lemma driver_outcome_in_order (env : environment) (mp : string) (out : option string)
    (i : Z) (s : bool) (op : Z) (r0 : node) :
  in_phase_order (driver_outcome env mp out i s op r0).1.2 = true.
Proof.
  unfold driver_outcome, in_phase_order.
  destruct (checkpoint_exists env mp r0); [|done].
  destruct (YOLO env r0 mp) as [m|x]; [|done].
  destruct (export env m (driver_args i s op) r0) as [r [e|x]]; [|done].
  destruct (relocate_tree env out e r) as [r' [p|x]]; cbn [fst snd map].
  - rewrite map_app.
    destruct (relocation_calls_ranks env out e r) as [->|[->| ->]];
      destruct (verify_calls_ranks env r' (str_value p)) as [->|[->| ->]]; done.
  - destruct (relocation_calls_ranks env out e r) as [->|[->| ->]]; done.
Qed.

(** X2. In every run the driver calls each library entry point at most
    once and in one order: load the checkpoint, export, create the
    directories, move, import the validator, load the graph, check it.
    Nothing is retried, whatever fails; [main] adds no call of its own. *)
Theorem calls_come_once_and_in_order
    (env : environment) (mp : string) (out : option string) (i : Z) (s : bool) (op : Z)
    (file : string) (argv : list string) (w : world) :
  (∃ cs, calls (convert_yolo_to_onnx env mp out i s op w).1 = calls w ++ cs
         ∧ in_phase_order cs = true)
  ∧ (∃ cs, calls (main env file argv w).1 = calls w ++ cs
           ∧ in_phase_order cs = true).
Proof.
  split.
  - destruct (driver_outcome_spec env mp out i s op w) as (lines & -> & _).
    eexists. split; [reflexivity|]. apply driver_outcome_in_order.
  - rewrite main_run. unfold main_driver.
    destruct (driver_outcome_spec env (str (resolve_paths file argv).1)
                (Some (str (resolve_paths file argv).2)) 640 true 17 w)
      as (lines & -> & _).
    eexists. split; [|apply driver_outcome_in_order].
    by destruct (driver_outcome _ _ _ _ _ _ _).2.
Qed.

(** ** What the validator is shown, and what it cannot change *)

Lemma relocation_calls_no_load (env : environment) (out : option string)
    (e : string) (r : node) (q : string) :
  CallOnnxLoad q ∉ relocation_calls env out e r.
Proof.
  destruct (relocation_calls_cases env out e r)
    as [[_ ->]|(o & _ & _ & [(x & _ & ->)|(r1 & _ & ->)])];
    intros Hin; repeat (apply elem_of_cons in Hin as [Hin|Hin]; [done|]);
    by apply elem_of_nil in Hin.
Qed.

Lemma verify_calls_load (env : environment) (r : node) (q q' : string) :
  CallOnnxLoad q' ∈ verify_calls env r q → q' = q.
Proof.
  unfold verify_calls. destruct (import_onnx env).
  - rewrite list_elem_of_singleton. done.
  - destruct (onnx_load env r q); intros Hin;
      apply elem_of_cons in Hin as [Hin|Hin]; try done;
      apply elem_of_cons in Hin as [Hin|Hin]; try (by injection Hin);
      repeat (apply elem_of_cons in Hin as [Hin|Hin]; [done|]);
      by apply elem_of_nil in Hin.
Qed.

(** X3. The graph the validator is asked to load is always the path the
    driver returns: a load of the graph occurs only in a run that
    returns, and its argument is the string of the returned path (the
    requested output path after a move, the library's path otherwise). *)
Theorem validator_loads_the_returned_path
    (env : environment) (mp : string) (out : option string) (i : Z) (s : bool) (op : Z)
    (w : world) :
  ∃ cs, calls (convert_yolo_to_onnx env mp out i s op w).1 = calls w ++ cs
        ∧ ∀ q, CallOnnxLoad q ∈ cs →
               ∃ p, (convert_yolo_to_onnx env mp out i s op w).2 = Ok p
                    ∧ q = str_value p.
Proof.
  destruct (driver_outcome_spec env mp out i s op w) as (lines & -> & _).
  eexists. split; [reflexivity|]. cbn [snd]. unfold driver_outcome.
  destruct (checkpoint_exists env mp (fs w)).
  2:{ intros q Hin. by apply elem_of_nil in Hin. }
  destruct (YOLO env (fs w) mp) as [m|x].
  2:{ intros q Hin. by apply list_elem_of_singleton in Hin. }
  destruct (export env m (driver_args i s op) (fs w)) as [r [e|x]].
  2:{ intros q Hin. cbn [fst snd] in Hin.
      repeat (apply elem_of_cons in Hin as [Hin|Hin]; [done|]).
      by apply elem_of_nil in Hin. }
  destruct (relocate_tree env out e r) as [r' [p|x]]; cbn [fst snd]; intros q Hin;
    apply elem_of_cons in Hin as [Hin|Hin]; try done;
    apply elem_of_cons in Hin as [Hin|Hin]; try done.
  - apply elem_of_app in Hin as [Hin|Hin].
    + by apply relocation_calls_no_load in Hin.
    + apply verify_calls_load in Hin. by exists p.
  - by apply relocation_calls_no_load in Hin.
Qed.

Lemma relocate_tree_cwd (env env' : environment) (out : option string)
    (e : string) (r : node) :
  cwd env = cwd env' → relocate_tree env out e r = relocate_tree env' out e r.
Proof.
  intros Hc. destruct (needs_move out e) eqn:Hn.
  - destruct out as [o|]; [|done].
    by rewrite !relocate_tree_move, Hc by exact Hn.
  - by rewrite !relocate_tree_stay by exact Hn.
Qed.

(** X4. The validator and the formatting of what is printed have no say
    in the outcome: two installations with the same working directory,
    the same model loader and the same export give, from the same world,
    the same result (the same path returned or the same error raised) and
    the same file tree, whatever their validators do and however they
    print lists. *)
Theorem outcome_is_independent_of_the_validator
    (env env' : environment) (mp : string) (out : option string)
    (i : Z) (s : bool) (op : Z) (w : world) :
  cwd env = cwd env' →
  YOLO env = YOLO env' →
  export env = export env' →
  (convert_yolo_to_onnx env mp out i s op w).2
  = (convert_yolo_to_onnx env' mp out i s op w).2
  ∧ fs (convert_yolo_to_onnx env mp out i s op w).1
    = fs (convert_yolo_to_onnx env' mp out i s op w).1.
Proof.
  intros Hc Hy He.
  destruct (driver_outcome_spec env mp out i s op w) as (lines & -> & _).
  destruct (driver_outcome_spec env' mp out i s op w) as (lines' & -> & _).
  cbn [fst snd fs evolve]. unfold driver_outcome, checkpoint_exists.
  rewrite <-Hc, <-Hy, <-He.
  destruct (os_path_exists (cwd env) (str (Path mp)) (fs w)); [|done].
  destruct (YOLO env (fs w) mp) as [m|x]; [|done].
  destruct (export env m (driver_args i s op) (fs w)) as [r [e|x]]; [|done].
  rewrite <-(relocate_tree_cwd env env' out e r Hc).
  by destruct (relocate_tree env out e r) as [r' [p|x]].
Qed.

Lemma outcome_is_independent_of_the_validator_witness :
  (convert_yolo_to_onnx Demo.good_env "m.pt" (Some "out/x.onnx") 640 true 17
     Demo.demo_world).2
  = (convert_yolo_to_onnx Demo.strict_env "m.pt" (Some "out/x.onnx") 640 true 17
       Demo.demo_world).2
  ∧ calls (convert_yolo_to_onnx Demo.good_env "m.pt" (Some "out/x.onnx") 640 true 17
             Demo.demo_world).1
    = calls (convert_yolo_to_onnx Demo.strict_env "m.pt" (Some "out/x.onnx") 640 true 17
               Demo.demo_world).1
  ∧ stdout (convert_yolo_to_onnx Demo.good_env "m.pt" (Some "out/x.onnx") 640 true 17
              Demo.demo_world).1
    ≠ stdout (convert_yolo_to_onnx Demo.strict_env "m.pt" (Some "out/x.onnx") 640 true 17
                Demo.demo_world).1.
Proof.
  split.
  - apply (outcome_is_independent_of_the_validator Demo.good_env Demo.strict_env
             "m.pt" (Some "out/x.onnx") 640 true 17 Demo.demo_world
             eq_refl eq_refl eq_refl).
  - split; [vm_compute; reflexivity|]. vm_compute. discriminate.
Defined.

(** ** When the relocation fails *)



(** ** One place under two spellings *)

Lemma mkdir_beside_a_file (cwd : loc) (o : string) (r : node) (c : string) :
  is_dir cwd r = true →
  lookup_path (locate cwd o) r = Some (File c) →
  path_mkdir cwd (parent (Path o)) r = Ok r.
Proof.
  intros Hcwd Hf. pose proof (file_has_a_name _ _ _ _ Hcwd Hf) as Hparts.
  unfold path_mkdir. rewrite locate_parent by exact Hparts.
  rewrite makedirs_existing; [done|].
  eapply parent_is_dir; [|exact Hf].
  unfold locate. destruct (truthy (root (Path o))); [done|].
  intros Happ. apply app_eq_nil in Happ as [_ ?]. done.
Qed.

(** X6. When the output path is another spelling of the place the export
    wrote to (the strings differ, the places do not), the relocation runs
    and changes nothing: the move is called, the tree is left exactly as
    the export left it, and the driver returns the output path. *)
Theorem respelled_output_leaves_the_file_in_place
    (env : environment) (mp o : string) (i : Z) (s : bool) (op : Z) (w : world)
    (m : yolo_model) (r : node) (e c : string) :
  checkpoint_exists env mp (fs w) = true →
  YOLO env (fs w) mp = Ok m →
  export env m (driver_args i s op) (fs w) = (r, Ok e) →
  needs_move (Some o) e = true →
  e ≠ "" →
  place env o = place env e →
  lookup_path (place env e) r = Some (File c) →
  is_dir (cwd env) r = true →
  ∃ w', convert_yolo_to_onnx env mp (Some o) i s op w = (w', Ok (AsPath (Path o)))
        ∧ fs w' = r
        ∧ CallMove e (str (Path o)) ∈ calls w'.
Proof.
  intros Hx Hm He Hn Hne Hsame Hf Hcwd. unfold place in *.
  assert (lookup_path (locate (cwd env) o) r = Some (File c)) as Hfo
    by (by rewrite Hsame).
  pose proof (mkdir_beside_a_file _ _ _ _ Hcwd Hfo) as Hmk.
  assert (shutil_move (cwd env) e (str (Path o)) r = Ok r) as Hmv.
  { unfold shutil_move, os_path_isdir, is_dir. rewrite locate_normal, Hfo.
    rewrite andb_false_r. unfold os_rename.
    rewrite (str_truthy (Path o)) by apply wf_path_Path.
    destruct e; [done|]. cbn [truthy negb orb]. rewrite locate_normal, Hsame.
    unfold rename. rewrite Hf. by rewrite bool_decide_eq_true_2. }
  destruct (driver_outcome_spec env mp (Some o) i s op w) as (lines & Hrun & _).
  unfold driver_outcome in Hrun. rewrite Hx, Hm, He in Hrun.
  rewrite (relocate_tree_move env o e r Hn), Hmk, Hmv in Hrun. cbn [fst snd] in Hrun.
  unfold relocation_calls in Hrun. rewrite Hn, Hmk in Hrun.
  eexists. split; [exact Hrun|]. split; [done|]. cbn [calls evolve app].
  rewrite elem_of_app, !elem_of_cons. right. right. right. right. by left.
Qed.

Lemma respelled_output_leaves_the_file_in_place_witness :
  needs_move (Some "./m.onnx") "m.onnx" = true
  ∧ place Demo.good_env "./m.onnx" = place Demo.good_env "m.onnx"
  ∧ ∃ w', convert_yolo_to_onnx Demo.good_env "m.pt" (Some "./m.onnx") 640 true 17
            Demo.demo_world = (w', Ok (AsPath (Path "./m.onnx")))
          ∧ fs w' = Demo.after_export.
Proof.
  split; [reflexivity|]. split; [reflexivity|].
  destruct (respelled_output_leaves_the_file_in_place Demo.good_env "m.pt" "./m.onnx"
              640 true 17 Demo.demo_world (Demo.demo_model "m.pt")
              Demo.after_export "m.onnx" "graph"
              eq_refl eq_refl eq_refl eq_refl ltac:(discriminate) eq_refl eq_refl eq_refl)
    as (w' & Hrun & Hfs & _).
  exists w'. split; [exact Hrun | exact Hfs].
Defined.

(** ** The paths [main] hands to the driver *)

Lemma wf_path_joinpath (p : PurePath) (s : string) :
  wf_path p → wf_path (p </> s).
Proof.
  intros [Hr Hall]. unfold joinpath.
  destruct (truthy (root (Path s))); [apply wf_path_Path|].
  split; [exact Hr|]. cbn [parts]. apply Forall_app. split; [exact Hall|].
  apply wf_path_Path.
Qed.

Lemma wf_path_resolve_paths (file : string) (argv : list string) :
  wf_path (resolve_paths file argv).1 ∧ wf_path (resolve_paths file argv).2.
Proof.
  unfold resolve_paths, default_model_path, default_output_path. cbn [fst snd].
  split; case_bool_decide; try apply wf_path_Path;
    do 3 apply wf_path_joinpath; do 2 apply wf_path_parent; apply wf_path_Path.
Qed.

Lemma truthy_ne (s : string) : truthy s = true → s ≠ "".
Proof. by destruct s. Qed.

(** X7. Between [main] and the driver a path goes through [str] and back
    through [Path]; nothing is lost on the way.  For every command line
    the two strings [main] passes are non-empty and read back as the very
    paths [main] resolved, so the driver checks, and relocates to, the
    places [main] chose.  As the output string is never empty, in a run
    of [main] the relocation is decided by string inequality alone.  An
    empty argument becomes the path [.]. *)
Theorem main_passes_paths_that_read_back
    (file : string) (argv : list string) :
  Path (str (resolve_paths file argv).1) = (resolve_paths file argv).1
  ∧ Path (str (resolve_paths file argv).2) = (resolve_paths file argv).2
  ∧ str (resolve_paths file argv).1 ≠ ""
  ∧ str (resolve_paths file argv).2 ≠ ""
  ∧ (∀ e, needs_move (Some (str (resolve_paths file argv).2)) e
          = negb (String.eqb e (str (resolve_paths file argv).2)))
  ∧ (∀ prog rest, str (resolve_paths file (prog :: "" :: rest)).1 = ".")
  ∧ (∀ prog a rest, str (resolve_paths file (prog :: a :: "" :: rest)).2 = ".").
Proof.
  destruct (wf_path_resolve_paths file argv) as [Hm Ho].
  split; [by apply Path_str|]. split; [by apply Path_str|].
  split; [by apply truthy_ne, str_truthy|].
  split; [by apply truthy_ne, str_truthy|].
  split; [|split; intros; reflexivity].
  intros e. unfold needs_move. by rewrite (str_truthy _ Ho).
Qed.

Lemma driver_outcome_starts_with_load (env : environment) (mp : string)
    (out : option string) (i : Z) (s : bool) (op : Z) (r0 : node) :
  checkpoint_exists env mp r0 = true →
  ∃ cs, (driver_outcome env mp out i s op r0).1.2 = CallYOLO mp :: cs.
Proof.
  intros Hx. unfold driver_outcome. rewrite Hx.
  destruct (YOLO env r0 mp) as [m|x]; [|by eexists].
  destruct (export env m (driver_args i s op) r0) as [r [e|x]]; [|by eexists].
  destruct (relocate_tree env out e r) as [r' [p|x]]; by eexists.
Qed.

(** X8. An empty first argument is not a missing checkpoint.  It names
    the working directory, which exists, so the not-found error is not
    raised and the run goes on to hand [.] to the model library. *)
Theorem empty_model_argument_is_the_working_directory
    (env : environment) (file prog : string) (rest : list string) (w : world) :
  is_dir (cwd env) (fs w) = true →
  checkpoint_exists env (str (resolve_paths file (prog :: "" :: rest)).1) (fs w) = true
  ∧ ∃ cs, calls (main env file (prog :: "" :: rest) w).1 = calls w ++ CallYOLO "." :: cs.
Proof.
  intros Hcwd.
  assert (checkpoint_exists env "." (fs w) = true) as Hx.
  { unfold checkpoint_exists, os_path_exists, path_exists.
    change (locate (cwd env) (str (Path "."))) with (cwd env ++ []).
    rewrite (right_id_L [] (++)). apply is_dir_lookup in Hcwd as [es ->]. done. }
  split; [exact Hx|].
  rewrite main_run. unfold main_driver.
  change (str (resolve_paths file (prog :: "" :: rest)).1) with ".".
  destruct (driver_outcome_spec env "."
              (Some (str (resolve_paths file (prog :: "" :: rest)).2)) 640 true 17 w)
    as (lines & -> & _).
  destruct (driver_outcome_starts_with_load env "."
              (Some (str (resolve_paths file (prog :: "" :: rest)).2)) 640 true 17
              (fs w) Hx) as (cs & Hcs).
  exists cs. rewrite <-Hcs.
  by destruct (driver_outcome _ _ _ _ _ _ _).2.
Qed.

Lemma empty_model_argument_is_the_working_directory_witness :
  is_dir (cwd Demo.good_env) (fs Demo.demo_world) = true
  ∧ (main Demo.good_env Demo.demo_file ["convert"; ""] Demo.demo_world).2 = SystemExit 1
  ∧ ∃ cs, calls (main Demo.good_env Demo.demo_file ["convert"; ""] Demo.demo_world).1
          = CallYOLO "." :: cs.
Proof.
  split; [reflexivity|]. split; [vm_compute; reflexivity|].
  destruct (empty_model_argument_is_the_working_directory Demo.good_env Demo.demo_file
              "convert" [] Demo.demo_world eq_refl) as [_ (cs & Hcs)].
  exists cs. exact Hcs.
Defined.

(** ** A run in which everything succeeds *)

(** X9. When the checkpoint loads, the export and the relocation succeed
    and the validator accepts the graph, the driver returns the path and
    has made exactly the calls load, export, the relocation's calls,
    import, load of the graph at the returned path, check; after the line
    reporting the export it prints the verification report, one line for
    each input and each output of the graph at its end; [main] then
    prints its own report and returns, for exit status 0. *)
Theorem verified_run
    (env : environment) (mp : string) (out : option string) (i : Z) (s : bool) (op : Z)
    (w : world) (m : yolo_model) (r r' : node) (e : string) (p : path_value)
    (g : onnx_model) :
  checkpoint_exists env mp (fs w) = true →
  YOLO env (fs w) mp = Ok m →
  export env m (driver_args i s op) (fs w) = (r, Ok e) →
  relocate_tree env out e r = (r', Ok p) →
  import_onnx env = None →
  onnx_load env r' (str_value p) = Ok g →
  check_model env g = None →
  (∃ w', convert_yolo_to_onnx env mp out i s op w = (w', Ok p)
         ∧ fs w' = r'
         ∧ calls w' = calls w ++ CallYOLO mp :: CallExport (driver_args i s op)
                                :: relocation_calls env out e r
                                ++ [CallImportOnnx; CallOnnxLoad (str_value p);
                                    CallCheckModel]
         ∧ (success_line p :: verification_report env g) `suffix_of` stdout w'
         ∧ length (verification_report env g)
           = (4 + length (graph_input g) + length (graph_output g))%nat)
  ∧ (∀ file argv,
       main_driver env file argv = convert_yolo_to_onnx env mp out i s op →
       ∃ w', main env file argv w = (w', Returned)
             ∧ exit_status Returned = 0
             ∧ (success_line p :: verification_report env g ++ success_report p)
               `suffix_of` stdout w').
Proof.
  intros Hx Hm He Hr Hi Hl Hc.
  destruct (driver_outcome_spec env mp out i s op w) as (lines & Hrun & Hlines).
  unfold driver_outcome in Hrun, Hlines. rewrite Hx, Hm, He, Hr in Hrun, Hlines.
  cbn [fst snd] in Hrun, Hlines.
  destruct (Hlines p eq_refl) as (pre & ->).
  unfold verify_calls, verify_lines in Hrun. rewrite Hi, Hl in Hrun. rewrite Hc in Hrun.
  split.
  - eexists. split; [exact Hrun|]. split; [done|]. split; [done|]. split.
    + cbn [stdout evolve]. rewrite (assoc_L (++)). by apply suffix_app_r.
    + unfold verification_report. rewrite !length_app, !length_map. cbn. lia.
  - intros file argv Hcall. rewrite main_run, Hcall, Hrun.
    eexists. split; [reflexivity|]. split; [done|].
    cbn [stdout evolve say].
    rewrite (assoc_L (++) (stdout w)), <-(assoc_L (++) _ _ (success_report p)).
    apply suffix_app_r. rewrite <-app_comm_cons. done.
Qed.

Lemma verified_run_witness :
  let argv := ["convert"] in
  let mp := "/w/public/models/yolov8n-seg-pothole.pt" in
  let out := "/w/public/models/yolov8n-seg-pothole.onnx" in
  checkpoint_exists Demo.good_env mp (fs Demo.demo_world) = true
  ∧ YOLO Demo.good_env (fs Demo.demo_world) mp = Ok (Demo.demo_model mp)
  ∧ (export Demo.good_env (Demo.demo_model mp) (driver_args 640 true 17)
       (fs Demo.demo_world)).2 = Ok out
  ∧ needs_move (Some out) out = false
  ∧ ∃ w', main Demo.good_env Demo.demo_file argv Demo.demo_world = (w', Returned)
          ∧ "    output0: [1, 'anchors']" ∈ stdout w'.
Proof.
  cbv zeta.
  split; [reflexivity|]. split; [reflexivity|]. split; [reflexivity|].
  split; [reflexivity|].
  destruct (verified_run Demo.good_env "/w/public/models/yolov8n-seg-pothole.pt"
              (Some "/w/public/models/yolov8n-seg-pothole.onnx") 640 true 17
              Demo.demo_world
              (Demo.demo_model "/w/public/models/yolov8n-seg-pothole.pt")
              (export Demo.good_env
                 (Demo.demo_model "/w/public/models/yolov8n-seg-pothole.pt")
                 (driver_args 640 true 17) (fs Demo.demo_world)).1
              (export Demo.good_env
                 (Demo.demo_model "/w/public/models/yolov8n-seg-pothole.pt")
                 (driver_args 640 true 17) (fs Demo.demo_world)).1
              "/w/public/models/yolov8n-seg-pothole.onnx"
              (AsStr "/w/public/models/yolov8n-seg-pothole.onnx") Demo.demo_graph
              eq_refl eq_refl eq_refl eq_refl eq_refl eq_refl eq_refl)
    as [_ Hmain].
  assert (main_driver Demo.good_env Demo.demo_file ["convert"]
          = convert_yolo_to_onnx Demo.good_env "/w/public/models/yolov8n-seg-pothole.pt"
              (Some "/w/public/models/yolov8n-seg-pothole.onnx") 640 true 17) as Hcall.
  { unfold main_driver.
    assert (str (resolve_paths Demo.demo_file ["convert"]).1
            = "/w/public/models/yolov8n-seg-pothole.pt") as ->
      by (vm_compute; reflexivity).
    assert (str (resolve_paths Demo.demo_file ["convert"]).2
            = "/w/public/models/yolov8n-seg-pothole.onnx") as ->
      by (vm_compute; reflexivity).
    reflexivity. }
  destruct (Hmain Demo.demo_file ["convert"] Hcall) as (w' & Hrun & _ & [k Hout]).
  exists w'. split; [exact Hrun|]. rewrite Hout.
  apply elem_of_app. right. apply list_elem_of_In. vm_compute.
  repeat first [left; reflexivity | right].
Defined.
